(** * Reference operators of torch._refs.special and the ONNX operator
      consistency suite

    A shallow embedding of
    - [torch/_refs/special/__init__.py]: the reference operators [logit] and
      [_xlog1py] and the declarations of [i1], [i0e], [i1e], [xlog1py], [zeta];
    - [test/onnx/test_op_consistancy.py]: the skip/xfail tables, [XfailOpset],
      [skip_ops] and [TestConsistency.test_output_match].

    Definitions come first, the properties proved about them follow. *)

From stdpp Require Import base option list gmap strings.
From Stdlib Require Import ZArith QArith Lia Lqa.

Local Open Scope string_scope.
Local Open Scope Z_scope.
Local Open Scope list_scope.

(* ===================================================================== *)
(** * Python exceptions and fallible results *)
(* ===================================================================== *)

Inductive exn :=
| AssertionError (msg : string)
| RuntimeError (msg : string)
| TypeMismatch
| UnsupportedDtype.

Inductive result (A : Type) :=
| Ok (x : A)
| Raise (e : exn).
Arguments Ok {A} x.
Arguments Raise {A} e.

#[global] Instance result_ret : MRet result := λ A x, Ok x.
#[global] Instance result_bind : MBind result := λ A B f m,
  match m with Ok x => f x | Raise e => Raise e end.

Definition is_ok {A} (r : result A) : bool :=
  match r with Ok _ => true | Raise _ => false end.

(** [assert c, msg] *)
Definition assert (c : bool) (msg : string) : result unit :=
  if c then Ok tt else Raise (AssertionError msg).

(* ===================================================================== *)
(** * torch.dtype *)
(* ===================================================================== *)

Module torch.

Inductive dtype :=
| bool | uint8 | int8 | int16 | int32 | int64
| float16 | float32 | float64 | bfloat16
| qint8 | quint8
| complex32 | complex64 | complex128.

#[global] Instance dtype_eq_dec : EqDecision dtype.
Proof. solve_decision. Defined.

End torch.

(* ===================================================================== *)
(** * Element values

    Tensor elements and Python floats are IEEE values.  They are modelled by
    their special values (NaN and the two infinities) and, for the finite
    ones, by an exact rational: rounding and the sign of zero are outside
    this model, the NaN/infinity algebra and the comparisons are inside. *)
(* ===================================================================== *)

Inductive elem :=
| NaN
| NInf
| PInf
| Fin (q : Q).

Definition is_nan (e : elem) : Datatypes.bool :=
  match e with NaN => true | _ => false end.

Definition inf_of_sign (c : comparison) : elem :=
  match c with Lt => NInf | Gt => PInf | Eq => NaN end.

Definition elem_neg (e : elem) : elem :=
  match e with
  | NaN => NaN
  | NInf => PInf
  | PInf => NInf
  | Fin q => Fin (- q)
  end.

Definition elem_add (a b : elem) : elem :=
  match a, b with
  | NaN, _ | _, NaN => NaN
  | PInf, NInf | NInf, PInf => NaN
  | PInf, _ | _, PInf => PInf
  | NInf, _ | _, NInf => NInf
  | Fin p, Fin q => Fin (p + q)
  end.

Definition elem_sub (a b : elem) : elem := elem_add a (elem_neg b).

Definition elem_mul (a b : elem) : elem :=
  match a, b with
  | NaN, _ | _, NaN => NaN
  | Fin p, Fin q => Fin (p * q)
  | Fin p, PInf | PInf, Fin p => inf_of_sign (p ?= 0)%Q
  | Fin p, NInf | NInf, Fin p => inf_of_sign (0 ?= p)%Q
  | PInf, PInf | NInf, NInf => PInf
  | PInf, NInf | NInf, PInf => NInf
  end.

(** Division; a zero divisor is taken as [+0]. *)
Definition elem_div (a b : elem) : elem :=
  match a, b with
  | NaN, _ | _, NaN => NaN
  | Fin p, Fin q =>
      if Qeq_bool q 0 then inf_of_sign (p ?= 0)%Q else Fin (p / q)
  | Fin _, (PInf | NInf) => Fin 0
  | PInf, Fin q => match (q ?= 0)%Q with Lt => NInf | _ => PInf end
  | NInf, Fin q => match (q ?= 0)%Q with Lt => PInf | _ => NInf end
  | (PInf | NInf), (PInf | NInf) => NaN
  end.

(** IEEE [==]: NaN is equal to nothing. *)
Definition elem_eqb (a b : elem) : Datatypes.bool :=
  match a, b with
  | NInf, NInf | PInf, PInf => true
  | Fin p, Fin q => Qeq_bool p q
  | _, _ => false
  end.

(** IEEE [<]: false as soon as one side is NaN. *)
Definition elem_ltb (a b : elem) : Datatypes.bool :=
  match a, b with
  | NaN, _ | _, NaN => false
  | _, NInf => false
  | NInf, _ => true
  | PInf, _ => false
  | Fin _, PInf => true
  | Fin p, Fin q => match (p ?= q)%Q with Lt => true | _ => false end
  end.

Definition elem_of_bool (b : Datatypes.bool) : elem := if b then Fin 1 else Fin 0.

Definition truthy (e : elem) : Datatypes.bool := negb (elem_eqb e (Fin 0)).

(** Python's [Number]: bool, int or float (complex scalars are left out). *)
Inductive Number :=
| NBool (b : Datatypes.bool)
| NInt (z : Z)
| NFloat (x : elem).

Definition elem_of_number (n : Number) : elem :=
  match n with
  | NBool b => elem_of_bool b
  | NInt z => Fin (inject_Z z)
  | NFloat x => x
  end.

(* ===================================================================== *)
(** * Tensors and elementwise operations with broadcasting *)
(* ===================================================================== *)

(** A tensor: dtype, device, shape, and the element stored at each
    multi-index. *)
#[projections(primitive)]
Record Tensor := mkTensor {
  dtype : torch.dtype;
  device : string;
  shape : list nat;
  item : list nat → elem
}.

(** [Union[TensorLikeType, NumberType]] *)
Inductive value :=
| VTensor (t : Tensor)
| VNumber (n : Number).

Definition isinstance_TensorLike (v : value) : Datatypes.bool :=
  match v with VTensor _ => true | VNumber _ => false end.

Definition vshape (v : value) : list nat :=
  match v with VTensor t => shape t | VNumber _ => [] end.

Definition vitem (v : value) : list nat → elem :=
  match v with VTensor t => item t | VNumber n => λ _, elem_of_number n end.

(** Modelled from the spec: "[where(cond, a, b)] / [isnan(x)]: standard
    elementwise semantics, broadcasting operand shapes" (the elementwise
    operators of [torch._refs] and their broadcasting are not among the
    sources).  Broadcasting of one dimension: equal sizes, or one of them 1. *)
Definition broadcast_dim (d1 d2 : nat) : option nat :=
  if Nat.eqb d1 d2 then Some d1
  else if Nat.eqb d1 1 then Some d2
  else if Nat.eqb d2 1 then Some d1
  else None.

(** Broadcasting of two shapes given innermost dimension first. *)
Fixpoint broadcast_rev (r1 r2 : list nat) : option (list nat) :=
  match r1, r2 with
  | [], r | r, [] => Some r
  | d1 :: r1', d2 :: r2' =>
      d ← broadcast_dim d1 d2;
      r ← broadcast_rev r1' r2';
      Some (d :: r)
  end.

Definition broadcast_shapes (s1 s2 : list nat) : option (list nat) :=
  reverse <$> broadcast_rev (reverse s1) (reverse s2).

(** The index of an operand of shape [rshape] that a result index [ridx]
    reads (both innermost first): dimensions are aligned from the inside
    and a dimension of size one is read at 0. *)
Fixpoint align_rev (rshape ridx : list nat) : list nat :=
  match rshape, ridx with
  | d :: rshape', i :: ridx' =>
      (if Nat.eqb d 1 then 0%nat else i) :: align_rev rshape' ridx'
  | _, _ => []
  end.

Definition broadcast_index (s idx : list nat) : list nat :=
  reverse (align_rev (reverse s) (reverse idx)).

(** The element of operand [v] used at position [idx] of a broadcast
    result. *)
Definition read (v : value) (idx : list nat) : elem :=
  vitem v (broadcast_index (vshape v) idx).

(** What the sources use of the torch runtime without defining it: the
    transcendental primitives on elements and the dtype and device that the
    elementwise wrappers give the result of an operator on its operands. *)
Class Backend := {
  prims_log : elem → elem;
  prims_log1p : elem → elem;
  result_meta : string → list value → torch.dtype * string
}.

(** Modelled from the spec: an elementwise operator of one operand applies
    the scalar computation to each element; a Python scalar is not accepted
    (the source notes that [torch.log] does not support scalar inputs). *)
Definition elementwise_unary `{Backend}
    (op : string) (f : elem → elem) (a : value) : result Tensor :=
  match a with
  | VNumber _ => Raise (RuntimeError "expected a tensor operand")
  | VTensor t =>
      Ok {| dtype := (result_meta op [a]).1;
            device := (result_meta op [a]).2;
            shape := shape t;
            item := λ idx, f (item t idx) |}
  end.

(** Modelled from the spec: an elementwise operator of two operands, "the
    same scalar computation independently to each element, after
    broadcasting"; one of the operands may be a Python scalar, not both. *)
Definition elementwise_binary `{Backend}
    (op : string) (f : elem → elem → elem) (a b : value) : result Tensor :=
  match a, b with
  | VNumber _, VNumber _ =>
      Raise (RuntimeError "two Number inputs to an elementwise binary operation")
  | _, _ =>
      match broadcast_shapes (vshape a) (vshape b) with
      | None => Raise (RuntimeError "shapes cannot be broadcast")
      | Some s =>
          Ok {| dtype := (result_meta op [a; b]).1;
                device := (result_meta op [a; b]).2;
                shape := s;
                item := λ idx, f (read a idx) (read b idx) |}
      end
  end.

(** Modelled from the spec: [refs.eq] and [refs.isnan], elementwise
    comparison and NaN test; boolean tensors hold 1 and 0. *)
Definition refs_eq `{Backend} (a b : value) : result Tensor :=
  elementwise_binary "eq" (λ x y, elem_of_bool (elem_eqb x y)) a b.

(** Modelled from the spec: [refs.isnan], see [refs_eq]. *)
Definition refs_isnan `{Backend} (a : value) : result Tensor :=
  elementwise_unary "isnan" (λ x, elem_of_bool (is_nan x)) a.

(** Modelled from the spec: [refs.log1p], the primitive [log1p] on each
    element. *)
Definition refs_log1p `{Backend} (a : value) : result Tensor :=
  elementwise_unary "log1p" prims_log1p a.

(** Modelled from the spec: [refs.mul], the product of the elements. *)
Definition refs_mul `{Backend} (a b : value) : result Tensor :=
  elementwise_binary "mul" elem_mul a b.

(** Modelled from the spec: [refs.where(pred, a, b)], the three-way select;
    the three operands are broadcast together. *)
Definition refs_where `{Backend} (pred : Tensor) (a b : value) : result Tensor :=
  match s ← broadcast_shapes (vshape a) (vshape b);
        broadcast_shapes (shape pred) s with
  | None => Raise (RuntimeError "shapes cannot be broadcast")
  | Some s =>
      Ok {| dtype := (result_meta "where" [VTensor pred; a; b]).1;
            device := (result_meta "where" [VTensor pred; a; b]).2;
            shape := s;
            item := λ idx,
              if truthy (read (VTensor pred) idx) then read a idx
              else read b idx |}
  end.

(** Modelled from the spec: [torch.clamp] on one element, "returns [lo] if
    [x < lo], [hi] if [x > hi], else [x]" (the torch function itself is not
    among the sources). *)
Definition clamp (x lo hi : elem) : elem :=
  if elem_ltb x lo then lo else if elem_ltb hi x then hi else x.

(** Modelled from the spec: [torch.clamp(self, lo, hi)] on a tensor, [clamp]
    on each element. *)
Definition torch_clamp `{Backend} (self : Tensor) (lo hi : elem) : result Tensor :=
  elementwise_unary "clamp" (λ x, clamp x lo hi) (VTensor self).

(** Modelled from the spec: [prims.scalar_tensor(n, dtype=..., device=...)],
    "promote the scalar operand to a structured value matching the other
    operand's dtype/device": a zero-dimensional tensor holding [n]. *)
Definition prims_scalar_tensor (n : Number) (dt : torch.dtype) (dev : string) : Tensor :=
  {| dtype := dt; device := dev; shape := []; item := λ _, elem_of_number n |}.

(** Modelled from the spec: [prims.device_put(t, device=...)], the "device
    transfer" of a tensor: same dtype, shape and elements on [dev]. *)
Definition prims_device_put (t : Tensor) (dev : string) : Tensor :=
  {| dtype := dtype t; device := dev; shape := shape t; item := item t |}.

(** Modelled from the spec: [utils.is_cpu_scalar_tensor], "a
    zero-dimensional host-resident value". *)
Definition is_cpu_scalar_tensor (v : value) : Datatypes.bool :=
  match v with
  | VTensor t => bool_decide (shape t = []) && bool_decide (device t = "cpu")
  | VNumber _ => false
  end.

(* ===================================================================== *)
(** * torch/_refs/special/__init__.py *)
(* ===================================================================== *)

(** [logit(self, eps=None)], the body under its decorators. *)
Definition logit `{Backend} (self : Tensor) (eps : option elem) : result Tensor :=
  let eps := match eps with None => Fin (-1) | Some eps => eps end in
  let lo := eps in
  let hi := elem_sub (Fin 1) eps in
  self ← torch_clamp self lo hi;
  d ← elementwise_binary "rsub" elem_sub (VNumber (NInt 1)) (VTensor self);
  q ← elementwise_binary "div" elem_div (VTensor self) (VTensor d);
  elementwise_unary "log" prims_log (VTensor q).

(** [_xlog1py(a, b)].  After the first block both operands are tensors; the
    branch [elif utils.is_cpu_scalar_tensor(a)] of the source is under
    [not isinstance(a, TensorLike)] and changes nothing. *)
Definition _xlog1py `{Backend} (a b : value) : result Tensor :=
  _ ← assert (isinstance_TensorLike a || isinstance_TensorLike b) EmptyString;
  let '(a, b) :=
    if isinstance_TensorLike a then
      match a, b with
      | VTensor ta, VNumber nb =>
          (a, VTensor (prims_scalar_tensor nb (dtype ta) (device ta)))
      | VTensor ta, VTensor tb =>
          if is_cpu_scalar_tensor b
          then (a, VTensor (prims_device_put tb (device ta)))
          else (a, b)
      | _, _ => (a, b)
      end
    else if isinstance_TensorLike b then
      match a, b with
      | VNumber na, VTensor tb =>
          (VTensor (prims_scalar_tensor na (dtype tb) (device tb)), b)
      | _, _ => (a, b)
      end
    else (a, b) in
  cond ← refs_eq a (VNumber (NInt 0));
  l ← refs_log1p b;
  m ← refs_mul a (VTensor l);
  rhs ← refs_where cond (VNumber (NInt 0)) (VTensor m);
  nanb ← refs_isnan b;
  refs_where nanb (VNumber (NFloat NaN)) (VTensor rhs).

(** ** Declared reference operators and their promotion kind *)

(** Modelled from the spec: the enumeration of promotion kinds
    ([utils.ELEMENTWISE_TYPE_PROMOTION_KIND] is not among the sources):
    "no promotion, integer-to-float, complex-to-real-part,
    same-as-lowest-common-type". *)
Inductive ELEMENTWISE_TYPE_PROMOTION_KIND :=
| NO_PROMOTION
| INT_TO_FLOAT
| COMPLEX_TO_FLOAT
| DEFAULT.

Record ReferenceOperator := {
  ref_name : string;
  ref_impl : string;
  ref_arity : nat;
  type_promotion_kind : ELEMENTWISE_TYPE_PROMOTION_KIND;
  aten_op : string
}.

Module declared.

Definition i1 : ReferenceOperator :=
  {| ref_name := "i1"; ref_impl := "prims.bessel_i1"; ref_arity := 1;
     type_promotion_kind := INT_TO_FLOAT; aten_op := "aten.special_i1" |}.

Definition i0e : ReferenceOperator :=
  {| ref_name := "i0e"; ref_impl := "prims.bessel_i0e"; ref_arity := 1;
     type_promotion_kind := INT_TO_FLOAT; aten_op := "aten.special_i0e" |}.

Definition i1e : ReferenceOperator :=
  {| ref_name := "i1e"; ref_impl := "prims.bessel_i1e"; ref_arity := 1;
     type_promotion_kind := INT_TO_FLOAT; aten_op := "aten.special_i1e" |}.

Definition logit : ReferenceOperator :=
  {| ref_name := "logit"; ref_impl := "logit"; ref_arity := 1;
     type_promotion_kind := INT_TO_FLOAT; aten_op := "aten.logit" |}.

Definition xlog1py : ReferenceOperator :=
  {| ref_name := "xlog1py"; ref_impl := "_xlog1py"; ref_arity := 2;
     type_promotion_kind := INT_TO_FLOAT; aten_op := "aten.special_xlog1py" |}.

Definition zeta : ReferenceOperator :=
  {| ref_name := "zeta"; ref_impl := "prims.zeta"; ref_arity := 2;
     type_promotion_kind := INT_TO_FLOAT; aten_op := "aten.special_zeta" |}.

(** The operators the module defines, in the order of [__all__]. *)
Definition __all__ : list ReferenceOperator :=
  [i1; i0e; i1e; logit; xlog1py; zeta].

End declared.

Definition is_boolean_or_integer (d : torch.dtype) : Datatypes.bool :=
  match d with
  | torch.bool | torch.uint8 | torch.int8 | torch.int16 | torch.int32
  | torch.int64 => true
  | _ => false
  end.

Definition is_float_or_complex (d : torch.dtype) : Datatypes.bool :=
  match d with
  | torch.float16 | torch.float32 | torch.float64 | torch.bfloat16
  | torch.complex32 | torch.complex64 | torch.complex128 => true
  | _ => false
  end.

(** Width of a dtype in bits. *)
Definition width (d : torch.dtype) : nat :=
  match d with
  | torch.bool | torch.uint8 | torch.int8 | torch.qint8 | torch.quint8 => 8
  | torch.int16 | torch.float16 | torch.bfloat16 => 16
  | torch.int32 | torch.float32 | torch.complex32 => 32
  | torch.int64 | torch.float64 | torch.complex64 => 64
  | torch.complex128 => 128
  end%nat.

(** The first floating/complex dtype of [ds] that no other one exceeds in
    width. *)
Definition widest_float_or_complex (ds : list torch.dtype) : option torch.dtype :=
  foldl (λ acc d,
           if is_float_or_complex d then
             match acc with
             | None => Some d
             | Some w => if (width w <? width d)%nat then Some d else Some w
             end
           else acc)
        None ds.

(** Modelled from the spec: [promote(kind, operand_dtypes)] of the
    TypePromotionEngine (the wrappers of [torch._prims] that compute it are
    not among the sources).  "no promotion: result dtype = common dtype of
    operands ... mismatched incompatible dtypes fail with a TypeMismatch
    error.  integer-to-float: if all operand dtypes are boolean/integer,
    result dtype = the default floating dtype; otherwise result dtype = the
    widest floating/complex dtype among operands.  Failure: signals
    UnsupportedDtype when no rule covers the given combination." *)
Definition promote (default_dtype : torch.dtype)
    (kind : ELEMENTWISE_TYPE_PROMOTION_KIND) (ds : list torch.dtype)
    : result torch.dtype :=
  match kind with
  | NO_PROMOTION =>
      match ds with
      | [] => Raise UnsupportedDtype
      | d :: ds' =>
          if forallb (λ d', bool_decide (d' = d)) ds' then Ok d
          else Raise TypeMismatch
      end
  | INT_TO_FLOAT =>
      if forallb is_boolean_or_integer ds then Ok default_dtype
      else match widest_float_or_complex ds with
           | Some d => Ok d
           | None => Raise UnsupportedDtype
           end
  | _ => Raise UnsupportedDtype
  end.

(* ===================================================================== *)
(** * test/onnx/test_op_consistancy.py *)
(* ===================================================================== *)

Definition MIN_ONNX_OPSET_VERSION : Z := 9.

Definition ORT_PROVIDERS : list string := ["CPUExecutionProvider"].

Definition SUPPORTED_DTYPES : list torch.dtype :=
  [torch.bool;
   torch.uint8; torch.int8; torch.int16; torch.int32; torch.int64;
   torch.float16; torch.float32; torch.float64; torch.bfloat16;
   torch.qint8; torch.quint8;
   torch.complex32; torch.complex64; torch.complex128].

Definition BOOL_TYPES : list torch.dtype := [torch.bool].

Definition INT_TYPES : list torch.dtype :=
  [torch.int8; torch.int16; torch.int32; torch.int64; torch.uint8].

Definition QINT_TYPES : list torch.dtype := [torch.qint8; torch.quint8].

Definition FLOAT_TYPES : list torch.dtype :=
  [torch.float16; torch.float32; torch.float64; torch.bfloat16].

Definition COMPLEX_TYPES : list torch.dtype :=
  [torch.complex32; torch.complex64; torch.complex128].

Module unittest.

(** The two decorators the tables use. *)
Inductive decorator :=
| expectedFailure
| skip (reason : string).

End unittest.

Module DecorateMeta.

Record t := mk {
  op_name : string;
  variant_name : string;
  decorator : unittest.decorator;
  device_type : option string;
  dtypes : option (list torch.dtype);
  reason : string
}.

End DecorateMeta.

(** Expects a OpInfo test to fail. *)
Definition xfail (op_name variant_name : string) (device_type : option string)
    (dtypes : option (list torch.dtype)) (reason : string) : DecorateMeta.t :=
  DecorateMeta.mk op_name variant_name unittest.expectedFailure
                  device_type dtypes reason.

(** Skips a test case in OpInfo. *)
Definition skip (op_name variant_name : string) (device_type : option string)
    (dtypes : option (list torch.dtype)) (reason : string) : DecorateMeta.t :=
  DecorateMeta.mk op_name variant_name (unittest.skip reason)
                  device_type dtypes reason.

(** An element of [XfailOpset.opsets]: an [int] or a predicate on opsets. *)
Inductive opset_spec :=
| OpsetInt (n : Z)
| OpsetPred (f : Z → Datatypes.bool).

Module XfailOpset.

(** Expects a OpInfo test to fail on specific ONNX opsets. *)
Record t := mk {
  op_name : string;
  opsets : list opset_spec;
  dtypes : option (list torch.dtype);
  exception : option string;
  reason : string
}.

Definition _contains_opset (self : t) (opset : Z) : Datatypes.bool :=
  existsb (λ opset_spec,
             match opset_spec with
             | OpsetInt n => opset =? n
             | OpsetPred f => f opset
             end)
          (opsets self).

Definition _contains_dtype (self : t) (dtype : torch.dtype) : Datatypes.bool :=
  match dtypes self with
  | None => true
  | Some ds => bool_decide (dtype ∈ ds)
  end.

(** Returns whether the test should fail for the given opset and dtype. *)
Definition should_fail (self : t) (opset : Z) (dtype : torch.dtype)
    : Datatypes.bool :=
  _contains_opset self opset && _contains_dtype self dtype.

End XfailOpset.

(** Returns a comparison function that decides if the given opset is before
    the specified. *)
Definition opsets_before (opset : Z) : Z → Datatypes.bool :=
  λ other_opset, other_opset <? opset.

(** Returns a comparison function that decides if the given opset is after
    the specified. *)
Definition opsets_after (opset : Z) : Z → Datatypes.bool :=
  λ other_opset, other_opset >? opset.

Module DecorateInfo.

(** [opinfo_core.DecorateInfo(decorator, cls_name, test_name, device_type=,
    dtypes=)] *)
Record t := mk {
  decorator : unittest.decorator;
  cls_name : string;
  test_name : string;
  device_type : option string;
  dtypes : option (list torch.dtype)
}.

End DecorateInfo.

(** One sample input of an operator. *)
Record SampleInput := {
  input : value;
  args : list value;
  kwargs : list (string * value)
}.

Module OpInfo.

(** What the suite reads and writes of an [opinfo_core.OpInfo]. *)
#[projections(primitive)]
Record t := mk {
  name : string;
  variant_test_name : string;
  decorators : list DecorateInfo.t;
  sample_inputs : string → torch.dtype → list SampleInput
}.

Definition set_decorators (opinfo : t) (ds : list DecorateInfo.t) : t :=
  mk (name opinfo) (variant_test_name opinfo) ds (sample_inputs opinfo).

End OpInfo.

(** The dict [{(info.name, info.variant_test_name): info for info in
    all_opinfos}].  The OpInfo objects are shared with [all_opinfos], so the
    dict holds the position of each object in that list; a later entry with
    the same key replaces an earlier one. *)
Definition opinfo_key (info : OpInfo.t) : string * string :=
  (OpInfo.name info, OpInfo.variant_test_name info).

Definition make_ops_mapping (all_opinfos : list OpInfo.t)
    : gmap (string * string) nat :=
  foldl (λ m (p : nat * OpInfo.t), <[opinfo_key p.2 := p.1]> m)
        ∅ (imap (λ i info, (i, info)) all_opinfos).

(** The key [(decorate_meta.op_name, decorate_meta.variant_name)] that
    [skip_ops] looks up. *)
Definition rule_key (decorate_meta : DecorateMeta.t) : string * string :=
  (DecorateMeta.op_name decorate_meta, DecorateMeta.variant_name decorate_meta).

Definition new_decorator (test_case_name base_test_name : string)
    (decorate_meta : DecorateMeta.t) : DecorateInfo.t :=
  DecorateInfo.mk (DecorateMeta.decorator decorate_meta)
                  test_case_name base_test_name
                  (DecorateMeta.device_type decorate_meta)
                  (DecorateMeta.dtypes decorate_meta).

(** The loop of [skip_ops] over [to_skip]; [all_opinfos] is the state of the
    OpInfo objects, which the loop updates in place. *)
Fixpoint skip_ops_loop (ops_mapping : gmap (string * string) nat)
    (test_case_name base_test_name : string)
    (to_skip : list DecorateMeta.t) (all_opinfos : list OpInfo.t)
    : result (list OpInfo.t) :=
  match to_skip with
  | [] => Ok all_opinfos
  | decorate_meta :: to_skip' =>
      match ops_mapping !! rule_key decorate_meta with
      | None => Raise (AssertionError "Couldn't find OpInfo")
      | Some i =>
          skip_ops_loop ops_mapping test_case_name base_test_name to_skip'
            (alter (λ opinfo,
                      OpInfo.set_decorators opinfo
                        (OpInfo.decorators opinfo ++
                         [new_decorator test_case_name base_test_name
                                        decorate_meta]))
                   i all_opinfos)
      end
  end.

(** Decorates OpInfo tests with decorators based on the to_skip list.
    Returns the OpInfo objects after the decoration (the decorator that
    Python returns leaves the test function as it is). *)
Definition skip_ops (all_opinfos : list OpInfo.t)
    (test_case_name base_test_name : string) (to_skip : list DecorateMeta.t)
    : result (list OpInfo.t) :=
  skip_ops_loop (make_ops_mapping all_opinfos) test_case_name base_test_name
                to_skip all_opinfos.

(** The section of the module that is edited as operators are added. *)
Record Tables := {
  ALLOWLIST_OP : list string;
  EXPECTED_SKIPS_OR_FAILS : list DecorateMeta.t;
  EXPECTED_OPSET_FAILS : list XfailOpset.t
}.

(** The tables as the module declares them. *)
Definition declared_tables : Tables :=
  {| ALLOWLIST_OP := ["ceil"; "sqrt"; "t"];
     EXPECTED_SKIPS_OR_FAILS :=
       [xfail "ceil" EmptyString None (Some [torch.bfloat16; torch.float64])
              "Ceil not implemented for f64 and bf64 in onnx runtime";
        skip "ceil" EmptyString None
             (Some (BOOL_TYPES ++ INT_TYPES ++ QINT_TYPES ++ COMPLEX_TYPES))
             "Not supported by onnx";
        skip "sqrt" EmptyString None
             (Some (BOOL_TYPES ++ QINT_TYPES ++ COMPLEX_TYPES))
             "Not supported by onnx";
        xfail "t" EmptyString None (Some ([torch.bfloat16] ++ COMPLEX_TYPES))
              "Transpose not implemented for bf64 in onnx runtime"];
     EXPECTED_OPSET_FAILS :=
       [XfailOpset.mk "sqrt" [OpsetPred (opsets_before 13)]
                      (Some [torch.bfloat16]) None
                      "sqrt not defined for bf16 before opset 13"] |}.

(** The class body of [TestConsistency]: [skip_ops] decorates the operator
    registry when the suite is built. *)
Definition build_TestConsistency (tables : Tables) (OPS_DB : list OpInfo.t)
    : result (list OpInfo.t) :=
  skip_ops OPS_DB "TestConsistency" "test_output_match"
           (EXPECTED_SKIPS_OR_FAILS tables).

(** Test model to wrap around a single op for export. *)
Record SingleOpModel := {
  operator : OpInfo.t;
  model_kwargs : list (string * value)
}.

(** The calls that [test_output_match] makes into the exporter, the ONNX
    library and the verification module, with the arguments it passes; an
    argument it leaves out is [None]. *)
Inductive call :=
| torch_onnx_export (model : SingleOpModel) (inputs : list value)
    (opset_version : Z) (keep_initializers_as_inputs : option Datatypes.bool)
| onnx_load
| onnx_checker_check_model (full_check : Datatypes.bool)
| verification_verify (model : SingleOpModel) (inputs : list value)
    (input_kwargs : list (string * value)) (opset_version : Z)
    (keep_initializers_as_inputs : Datatypes.bool)
    (ort_providers : list string)
    (check_shape check_dtype flatten : Datatypes.bool).

(** The collaborators of the suite: the largest opset of the exporter
    ([_constants.ONNX_MAX_OPSET]); for each call, the class of the exception
    it raises, if any; and Python's [issubclass] on exception classes
    ([issubclass cls base]: an instance of [cls] is an instance of
    [base]). *)
Class Collaborators := {
  ONNX_MAX_OPSET : Z;
  raises : call → option string;
  issubclass : string → string → Datatypes.bool
}.

(** Python's [range(lo, hi)]. *)
Definition range (lo hi : Z) : list Z :=
  (λ i : nat, lo + Z.of_nat i) <$> seq 0 (Z.to_nat (hi - lo)).

Definition MAX_ONNX_OPSET_VERSION `{Collaborators} : Z := ONNX_MAX_OPSET.

Definition TESTED_OPSETS `{Collaborators} : list Z :=
  range MIN_ONNX_OPSET_VERSION (MAX_ONNX_OPSET_VERSION + 1).

(** [{fail.op_name: fail for fail in EXPECTED_OPSET_FAILS}] *)
Definition expected_opset_fails_name_mapping (fails : list XfailOpset.t)
    : gmap string XfailOpset.t :=
  foldl (λ m fail, <[XfailOpset.op_name fail := fail]> m) ∅ fails.

Inductive context_manager :=
| assertRaises (exception : string)
| nullcontext.

(** The context manager chosen for one sub-test. *)
Definition select_context_manager (tables : Tables) (op : OpInfo.t)
    (opset : Z) (dtype : torch.dtype) : context_manager :=
  match expected_opset_fails_name_mapping (EXPECTED_OPSET_FAILS tables)
          !! OpInfo.name op with
  | Some fail =>
      if XfailOpset.should_fail fail opset dtype
      then assertRaises (default "Exception" (XfailOpset.exception fail))
      else nullcontext
  | None => nullcontext
  end.

(** The body of [with context_manager:]: the calls made, in order, and the
    exception that ended it, if any. *)
Definition run_block `{Collaborators} (dtype : torch.dtype)
    (model : SingleOpModel) (inputs : list value) (opset : Z)
    : list call * option string :=
  if bool_decide (dtype = torch.bfloat16) then
    let export := torch_onnx_export model inputs opset None in
    match raises export with
    | Some e => ([export], Some e)
    | None =>
        match raises onnx_load with
        | Some e => ([export; onnx_load], Some e)
        | None =>
            let check := onnx_checker_check_model true in
            ([export; onnx_load; check], raises check)
        end
    end
  else
    let verify :=
      verification_verify model inputs [] opset true ORT_PROVIDERS
                          true true true in
    ([verify], raises verify).

Inductive outcome :=
| passed
| failed.

(** How a context manager turns the end of its block into the outcome of
    the sub-test: [nullcontext] lets an exception through; [assertRaises]
    takes an exception that is an instance of its class, lets any other
    through, and fails when nothing was raised. *)
Definition exit_context `{Collaborators} (cm : context_manager)
    (raised : option string) : outcome :=
  match cm, raised with
  | nullcontext, None => passed
  | nullcontext, Some _ => failed
  | assertRaises _, None => failed
  | assertRaises cls, Some e => if issubclass e cls then passed else failed
  end.

Record subtest := {
  st_sample : SampleInput;
  st_opset : Z;
  st_context : context_manager;
  st_calls : list call;
  st_outcome : outcome
}.

Definition run_subtest `{Collaborators} (tables : Tables) (dtype : torch.dtype)
    (op : OpInfo.t) (cpu_sample : SampleInput) (opset : Z) : subtest :=
  let model := {| operator := op; model_kwargs := kwargs cpu_sample |} in
  let context_manager := select_context_manager tables op opset dtype in
  let inputs := input cpu_sample :: args cpu_sample in
  let '(calls, raised) := run_block dtype model inputs opset in
  {| st_sample := cpu_sample; st_opset := opset;
     st_context := context_manager; st_calls := calls;
     st_outcome := exit_context context_manager raised |}.

Inductive test_report :=
| skipTest (msg : string)
| subtests (sts : list subtest).

(** [itertools.product(xs, ys)] *)
Definition product {A B} (xs : list A) (ys : list B) : list (A * B) :=
  x ← xs; y ← ys; [(x, y)].

(** [TestConsistency.test_output_match(self, device, dtype, op)] *)
Definition test_output_match `{Collaborators} (tables : Tables)
    (device : string) (dtype : torch.dtype) (op : OpInfo.t)
    : result test_report :=
  _ ← assert (bool_decide (device = "cpu")) EmptyString;
  if negb (bool_decide (OpInfo.name op ∈ ALLOWLIST_OP tables)) then
    Ok (skipTest "is not in the allow list for test on ONNX")
  else
    let samples := OpInfo.sample_inputs op device dtype in
    Ok (subtests
          ((λ p : SampleInput * Z, run_subtest tables dtype op p.1 p.2)
             <$> product samples TESTED_OPSETS)).

(** ** The decorated test instances *)

(** Modelled from the spec: whether a decoration attached to an operator
    bears on the test instance of a device and a dtype.  "DecorateRule:
    (operator name, variant name, effect = {skip | expect-fail}, optional
    device filter, optional dtype set, reason string) ... applied once at
    test-suite construction to attach an effect to a specific (operator,
    device, dtype) test instance" (the instantiation of the tests by
    [common_device_type.ops] and [DecorateInfo.is_active] are not among the
    sources).  A filter that is left out lets every device, or every dtype,
    through; the decoration is for the test it names. *)
Definition is_active (d : DecorateInfo.t) (cls_name test_name device : string)
    (dtype : torch.dtype) : Datatypes.bool :=
  bool_decide (DecorateInfo.cls_name d = cls_name)
  && bool_decide (DecorateInfo.test_name d = test_name)
  && match DecorateInfo.device_type d with
     | None => true
     | Some device_type => bool_decide (device_type = device)
     end
  && match DecorateInfo.dtypes d with
     | None => true
     | Some dtypes => bool_decide (dtype ∈ dtypes)
     end.

Definition is_skip (d : DecorateInfo.t) : Datatypes.bool :=
  match DecorateInfo.decorator d with
  | unittest.skip _ => true
  | unittest.expectedFailure => false
  end.

Definition is_expectedFailure (d : DecorateInfo.t) : Datatypes.bool :=
  match DecorateInfo.decorator d with
  | unittest.expectedFailure => true
  | unittest.skip _ => false
  end.

Definition is_passed (o : outcome) : Datatypes.bool :=
  match o with passed => true | failed => false end.

Inductive test_outcome :=
| test_skipped
| test_passed
| test_failed
| test_expected_failure
| test_unexpected_success.

(** Modelled from the spec: the run of the test instance of an operator for
    a device and a dtype, under the decorations of the operator.  "Look up
    any unconditional skip/xfail for (operator, variant, device, dtype) - if
    present, the test is expected to not run to success (skip) or to raise
    (xfail), independent of format-version"; "skips ... are a deliberate
    non-execution outcome"; "ExpectedFailure - a sub-test whose rule
    predicted failure did not fail; itself a reported failure".  The test
    fails when [test_output_match] raises or one of its sub-tests fails. *)
Definition run_test_instance `{Collaborators} (tables : Tables)
    (device : string) (dtype : torch.dtype) (op : OpInfo.t) : test_outcome :=
  let active :=
    filter (λ d, is_active d "TestConsistency" "test_output_match" device dtype
                 = true)
           (OpInfo.decorators op) in
  if existsb is_skip active then test_skipped
  else
    let expecting_failure := existsb is_expectedFailure active in
    match test_output_match tables device dtype op with
    | Ok (skipTest _) => test_skipped
    | Ok (subtests sts) =>
        if forallb (λ st, is_passed (st_outcome st)) sts
        then (if expecting_failure then test_unexpected_success else test_passed)
        else (if expecting_failure then test_expected_failure else test_failed)
    | Raise _ =>
        if expecting_failure then test_expected_failure else test_failed
    end.

(* ===================================================================== *)
(** * Vocabulary of the properties *)
(* ===================================================================== *)



(** The decorators that [skip_ops] adds to the operator at position [i] of
    the registry: one for each rule of [to_skip] that resolves to it, in the
    order of [to_skip]. *)
Definition attached (ops_mapping : gmap (string * string) nat)
    (test_case_name base_test_name : string)
    (to_skip : list DecorateMeta.t) (i : nat) : list DecorateInfo.t :=
  new_decorator test_case_name base_test_name
    <$> filter (λ decorate_meta, ops_mapping !! rule_key decorate_meta = Some i)
               to_skip.

(** The calls that run the exported graph and compare its outputs. *)
Definition executes_graph (c : call) : Datatypes.bool :=
  match c with
  | verification_verify _ _ _ _ _ _ _ _ _ => true
  | _ => false
  end.

(** Whether a call that exports asks for initializers as graph inputs;
    calls that do not export count as doing so. *)
Definition exports_with_initializers_as_inputs (c : call) : Datatypes.bool :=
  match c with
  | torch_onnx_export _ _ _ k => bool_decide (k = Some true)
  | verification_verify _ _ _ _ k _ _ _ _ => k
  | onnx_load | onnx_checker_check_model _ => true
  end.


(** The number of decorators attached over the whole registry. *)
Definition total_decorators (all_opinfos : list OpInfo.t) : nat :=
  sum_list ((length ∘ OpInfo.decorators) <$> all_opinfos).

(** The opset version that a call hands to the exporter, if it exports. *)
Definition call_opset (c : call) : option Z :=
  match c with
  | torch_onnx_export _ _ v _ => Some v
  | verification_verify _ _ _ v _ _ _ _ _ => Some v
  | onnx_load | onnx_checker_check_model _ => None
  end.

(** The wrapper model and the inputs of the sub-test of a sample. *)
Definition model_of (op : OpInfo.t) (cpu_sample : SampleInput) : SingleOpModel :=
  {| operator := op; model_kwargs := kwargs cpu_sample |}.

Definition inputs_of (cpu_sample : SampleInput) : list value :=
  input cpu_sample :: args cpu_sample.

(* ===================================================================== *)
(** * Concrete inputs used by the examples below *)
(* ===================================================================== *)

(** A backend that computes: the logarithm of a positive rational by the
    first terms of [2 artanh ((q-1)/(q+1))], with the values IEEE gives at
    the special points; results take the dtype and device of the first
    tensor operand ([where] leaves its predicate aside), comparisons and tests
    give booleans. *)
Definition ln_series (q : Q) : Q :=
  let z := ((q - 1) / (q + 1))%Q in
  (2 * (z + z * z * z / 3 + z * z * z * z * z / 5))%Q.

Definition log_series (e : elem) : elem :=
  match e with
  | NaN | NInf => NaN
  | PInf => PInf
  | Fin q =>
      match (q ?= 0)%Q with
      | Lt => NaN
      | Eq => NInf
      | Gt => Fin (ln_series q)
      end
  end.

Definition first_tensor_meta (vs : list value) : torch.dtype * string :=
  match omap (λ v, match v with VTensor t => Some t | VNumber _ => None end) vs with
  | t :: _ => (dtype t, device t)
  | [] => (torch.float32, "cpu")
  end.

Definition series_backend : Backend :=
  {| prims_log := log_series;
     prims_log1p := λ e, log_series (elem_add (Fin 1) e);
     result_meta := λ op vs,
       if bool_decide (op = "eq") || bool_decide (op = "isnan")
       then (torch.bool, (first_tensor_meta vs).2)
       else if bool_decide (op = "where") then first_tensor_meta (tail vs)
       else first_tensor_meta vs |}.

(** A vector of the given elements; positions past the end read NaN. *)
Definition vector (dt : torch.dtype) (dev : string) (xs : list elem) : Tensor :=
  {| dtype := dt; device := dev; shape := [length xs];
     item := λ idx, match idx with
                    | [i] => default NaN (xs !! i)
                    | _ => NaN
                    end |}.

(** A registry with the single operator "sqrt" and one sample input. *)
Definition sqrt_sample : SampleInput :=
  {| input := VTensor (vector torch.bfloat16 "cpu" [Fin 4; Fin 9]);
     args := []; kwargs := [] |}.

Definition sqrt_info : OpInfo.t :=
  OpInfo.mk "sqrt" EmptyString [] (λ _ _, [sqrt_sample]).

Definition sqrt_registry : list OpInfo.t := [sqrt_info].

(** A registry with the three allow-listed operators. *)
Definition ceil_info : OpInfo.t :=
  OpInfo.mk "ceil" EmptyString [] (λ _ _, []).

Definition t_info : OpInfo.t :=
  OpInfo.mk "t" EmptyString [] (λ _ _, []).

Definition allowlist_registry : list OpInfo.t := [ceil_info; sqrt_info; t_info].

(** The exception classes of the examples with their base classes, each
    class first. *)
Definition exception_bases (cls : string) : list string :=
  if String.eqb cls "UnsupportedOperatorError" then
    ["UnsupportedOperatorError"; "OnnxExporterError"; "RuntimeError";
     "Exception"; "BaseException"]
  else if String.eqb cls "OnnxExporterError" then
    ["OnnxExporterError"; "RuntimeError"; "Exception"; "BaseException"]
  else if String.eqb cls "KeyboardInterrupt" then
    ["KeyboardInterrupt"; "BaseException"]
  else if String.eqb cls "BaseException" then ["BaseException"]
  else if String.eqb cls "Exception" then ["Exception"; "BaseException"]
  else [cls; "Exception"; "BaseException"].

Definition exception_issubclass (cls base : string) : Datatypes.bool :=
  bool_decide (base ∈ exception_bases cls).

(** Collaborators in which no call raises and the largest opset is 17. *)
Definition quiet_collaborators : Collaborators :=
  {| ONNX_MAX_OPSET := 17; raises := λ _, None;
     issubclass := exception_issubclass |}.

(** Collaborators whose exporter raises for every opset before 13. *)
Definition old_opset_collaborators : Collaborators :=
  {| ONNX_MAX_OPSET := 17;
     raises := λ c,
       match c with
       | torch_onnx_export _ _ v _ =>
           if v <? 13 then Some "UnsupportedOperatorError" else None
       | _ => None
       end;
     issubclass := exception_issubclass |}.

(** Tables whose rule for "sqrt" names the exception class it expects. *)
Definition sqrt_exporter_error_rule : XfailOpset.t :=
  XfailOpset.mk "sqrt" [OpsetPred (opsets_before 13)] (Some [torch.bfloat16])
                (Some "OnnxExporterError")
                "sqrt not defined for bf16 before opset 13".

Definition tables_with_exporter_error_rule : Tables :=
  {| ALLOWLIST_OP := ["sqrt"];
     EXPECTED_SKIPS_OR_FAILS := [];
     EXPECTED_OPSET_FAILS := [sqrt_exporter_error_rule] |}.

(** Tables whose only opset-conditional rule names an operator that the
    registry does not have. *)
Definition tables_with_unknown_opset_rule : Tables :=
  {| ALLOWLIST_OP := ["sqrt"];
     EXPECTED_SKIPS_OR_FAILS := [];
     EXPECTED_OPSET_FAILS :=
       [XfailOpset.mk "no_such_op" [OpsetPred (opsets_before 13)] None None
                      "unspecified"] |}.

(** Tables with two opset-conditional rules for "sqrt". *)
Definition sqrt_bfloat16_rule : XfailOpset.t :=
  XfailOpset.mk "sqrt" [OpsetPred (opsets_before 13)] (Some [torch.bfloat16])
                None "sqrt not defined for bf16 before opset 13".

Definition sqrt_float16_rule : XfailOpset.t :=
  XfailOpset.mk "sqrt" [OpsetInt 9] (Some [torch.float16]) None "unspecified".

Definition tables_with_two_sqrt_rules : Tables :=
  {| ALLOWLIST_OP := ["sqrt"];
     EXPECTED_SKIPS_OR_FAILS := [];
     EXPECTED_OPSET_FAILS := [sqrt_bfloat16_rule; sqrt_float16_rule] |}.

(* ===================================================================== *)
(** * Properties *)
(* ===================================================================== *)

(** ** Broadcasting *)

Lemma broadcast_rev_nil_l r : broadcast_rev [] r = Some r.
Proof. by destruct r. Qed.

Lemma broadcast_rev_nil_r r : broadcast_rev r [] = Some r.
Proof. by destruct r. Qed.

Lemma broadcast_dim_refl d : broadcast_dim d d = Some d.
Proof. unfold broadcast_dim. by rewrite Nat.eqb_refl. Qed.

Lemma broadcast_rev_refl r : broadcast_rev r r = Some r.
Proof.
  induction r as [|d r IH]; [done|].
  cbn. rewrite broadcast_dim_refl. cbn. by rewrite IH.
Qed.

Lemma broadcast_dim_absorb d1 d2 d :
  broadcast_dim d1 d2 = Some d →
  broadcast_dim d1 d = Some d ∧ broadcast_dim d2 d = Some d.
Proof.
  unfold broadcast_dim.
  destruct (Nat.eqb_spec d1 d2) as [->|Hne].
  - intros [= ->]. by rewrite Nat.eqb_refl.
  - destruct (Nat.eqb_spec d1 1) as [->|Hd1].
    + intros [= ->]. rewrite Nat.eqb_refl.
      destruct (Nat.eqb_spec 1 d); done.
    + destruct (Nat.eqb_spec d2 1) as [->|Hd2]; [|done].
      intros [= ->]. rewrite Nat.eqb_refl.
      destruct (Nat.eqb_spec 1 d); [lia|done].
Qed.

Lemma broadcast_rev_absorb r1 r2 r :
  broadcast_rev r1 r2 = Some r →
  broadcast_rev r1 r = Some r ∧ broadcast_rev r2 r = Some r.
Proof.
  revert r2 r. induction r1 as [|d1 r1 IH]; intros r2 r.
  - rewrite broadcast_rev_nil_l. intros [= ->].
    by rewrite broadcast_rev_nil_l, broadcast_rev_refl.
  - destruct r2 as [|d2 r2].
    + rewrite broadcast_rev_nil_r. intros [= <-].
      split; [apply broadcast_rev_refl|apply broadcast_rev_nil_l].
    + cbn. destruct (broadcast_dim d1 d2) as [d|] eqn:Hd; [|done]. cbn.
      destruct (broadcast_rev r1 r2) as [r'|] eqn:Hr; [|done]. cbn.
      intros [= <-].
      destruct (broadcast_dim_absorb _ _ _ Hd) as [-> ->].
      destruct (IH _ _ Hr) as [-> ->]. done.
Qed.

Lemma align_rev_absorb r1 r ridx :
  broadcast_rev r1 r = Some r →
  align_rev r1 (align_rev r ridx) = align_rev r1 ridx.
Proof.
  revert r ridx. induction r1 as [|d1 r1 IH]; intros r ridx; [done|].
  destruct r as [|d r].
  - cbn. done.
  - cbn. destruct (broadcast_dim d1 d) as [d'|] eqn:Hd; [|done]. cbn.
    destruct (broadcast_rev r1 r) as [r'|] eqn:Hr; [|done]. cbn.
    intros [= -> ->]. destruct ridx as [|i ridx]; [done|]. cbn.
    rewrite (IH _ _ Hr). f_equal.
    unfold broadcast_dim in Hd.
    destruct (Nat.eqb_spec d1 d) as [->|?]; [by destruct (Nat.eqb d 1)|].
    destruct (Nat.eqb_spec d1 1); [done|].
    destruct (Nat.eqb_spec d 1); [congruence|done].
Qed.

Lemma broadcast_shapes_rev s1 s2 s :
  broadcast_shapes s1 s2 = Some s ↔
  broadcast_rev (reverse s1) (reverse s2) = Some (reverse s).
Proof.
  unfold broadcast_shapes.
  destruct (broadcast_rev (reverse s1) (reverse s2)) as [r|]; cbn; [|done].
  split; intros [= E]; f_equal.
  - by rewrite <- E, reverse_involutive.
  - by rewrite E, reverse_involutive.
Qed.

Lemma broadcast_shapes_nil_l s : broadcast_shapes [] s = Some s.
Proof. apply broadcast_shapes_rev, broadcast_rev_nil_l. Qed.

Lemma broadcast_shapes_nil_r s : broadcast_shapes s [] = Some s.
Proof. apply broadcast_shapes_rev, broadcast_rev_nil_r. Qed.

Lemma broadcast_shapes_refl s : broadcast_shapes s s = Some s.
Proof. apply broadcast_shapes_rev, broadcast_rev_refl. Qed.

Lemma broadcast_shapes_absorb s1 s2 s :
  broadcast_shapes s1 s2 = Some s →
  broadcast_shapes s1 s = Some s ∧ broadcast_shapes s2 s = Some s.
Proof.
  rewrite !broadcast_shapes_rev. apply broadcast_rev_absorb.
Qed.

Lemma broadcast_index_absorb s1 s idx :
  broadcast_shapes s1 s = Some s →
  broadcast_index s1 (broadcast_index s idx) = broadcast_index s1 idx.
Proof.
  rewrite broadcast_shapes_rev. intros Hs. unfold broadcast_index.
  by rewrite reverse_involutive, (align_rev_absorb _ _ _ Hs).
Qed.

Lemma broadcast_index_idemp s idx :
  broadcast_index s (broadcast_index s idx) = broadcast_index s idx.
Proof. apply broadcast_index_absorb, broadcast_shapes_refl. Qed.

Lemma read_absorb v s idx :
  broadcast_shapes (vshape v) s = Some s →
  read v (broadcast_index s idx) = read v idx.
Proof. intros Hs. unfold read. by rewrite (broadcast_index_absorb _ _ _ Hs). Qed.

Lemma truthy_of_bool c : truthy (elem_of_bool c) = c.
Proof. by destruct c. Qed.

(** ** Elementwise operators *)

Lemma bind_Ok {A B} (x : A) (f : A → result B) : Ok x ≫= f = f x.
Proof. done. Qed.

Lemma read_number n idx : read (VNumber n) idx = elem_of_number n.
Proof. done. Qed.

Lemma read_tensor t idx :
  read (VTensor t) idx = item t (broadcast_index (shape t) idx).
Proof. done. Qed.

Section elementwise.
Context `{Backend}.

Lemma elementwise_unary_ok op f (t : Tensor) :
  ∃ r, elementwise_unary op f (VTensor t) = Ok r
       ∧ shape r = shape t
       ∧ ∀ idx, item r idx = f (item t idx).
Proof. eexists. by split; [reflexivity|]. Qed.

Lemma elementwise_binary_ok op f (a b : value) s :
  isinstance_TensorLike a || isinstance_TensorLike b = true →
  broadcast_shapes (vshape a) (vshape b) = Some s →
  ∃ r, elementwise_binary op f a b = Ok r
       ∧ shape r = s
       ∧ ∀ idx, item r idx = f (read a idx) (read b idx).
Proof.
  intros Ht Hs. unfold elementwise_binary. rewrite Hs.
  destruct a, b; try discriminate Ht; eexists; by split; [reflexivity|].
Qed.

Lemma refs_where_ok (pred : Tensor) (a b : value) s :
  broadcast_shapes (vshape a) (vshape b) = Some s →
  broadcast_shapes (shape pred) s = Some s →
  ∃ r, refs_where pred a b = Ok r
       ∧ shape r = s
       ∧ ∀ idx, item r idx =
                if truthy (read (VTensor pred) idx) then read a idx
                else read b idx.
Proof.
  intros Hab Hp. unfold refs_where. rewrite Hab. cbn. rewrite Hp.
  eexists. by split; [reflexivity|].
Qed.

End elementwise.

(** ** [_xlog1py] *)

Section xlog1py.
Context `{Backend}.

Lemma xlog1py_chain (ta tb : Tensor) s :
  broadcast_shapes (shape ta) (shape tb) = Some s →
  ∃ r,
    (cond ← refs_eq (VTensor ta) (VNumber (NInt 0));
     l ← refs_log1p (VTensor tb);
     m ← refs_mul (VTensor ta) (VTensor l);
     rhs ← refs_where cond (VNumber (NInt 0)) (VTensor m);
     nanb ← refs_isnan (VTensor tb);
     refs_where nanb (VNumber (NFloat NaN)) (VTensor rhs)) = Ok r
    ∧ shape r = s
    ∧ ∀ idx,
        item r idx =
        if is_nan (read (VTensor tb) idx) then NaN
        else if elem_eqb (read (VTensor ta) idx) (Fin 0) then Fin 0
        else elem_mul (read (VTensor ta) idx)
                      (prims_log1p (read (VTensor tb) idx)).
Proof.
  intros Hs.
  destruct (broadcast_shapes_absorb _ _ _ Hs) as [Ha Hb].
  unfold refs_eq, refs_log1p, refs_mul, refs_isnan.
  destruct (elementwise_binary_ok "eq"
              (λ x y, elem_of_bool (elem_eqb x y))
              (VTensor ta) (VNumber (NInt 0)) (shape ta))
    as (cond & -> & Hcs & Hci); [done|apply broadcast_shapes_nil_r|].
  rewrite bind_Ok.
  destruct (elementwise_unary_ok "log1p" prims_log1p tb)
    as (l & -> & Hls & Hli).
  rewrite bind_Ok.
  destruct (elementwise_binary_ok "mul" elem_mul (VTensor ta) (VTensor l) s)
    as (m & -> & Hms & Hmi); [done|by cbn; rewrite Hls|].
  rewrite bind_Ok.
  destruct (refs_where_ok cond (VNumber (NInt 0)) (VTensor m) s)
    as (rhs & -> & Hrs & Hri);
    [cbn; rewrite Hms; apply broadcast_shapes_nil_l|by rewrite Hcs|].
  rewrite bind_Ok.
  destruct (elementwise_unary_ok "isnan" (λ x, elem_of_bool (is_nan x)) tb)
    as (nanb & -> & Hns & Hni).
  rewrite bind_Ok.
  destruct (refs_where_ok nanb (VNumber (NFloat NaN)) (VTensor rhs) s)
    as (r & -> & Hs' & Hi);
    [cbn; rewrite Hrs; apply broadcast_shapes_nil_l|by rewrite Hns|].
  exists r. split; [done|]. split; [done|]. intros idx.
  rewrite Hi, read_number, (read_tensor nanb), Hni, truthy_of_bool, Hns.
  rewrite <- read_tensor.
  destruct (is_nan (read (VTensor tb) idx)); [done|].
  rewrite (read_tensor rhs), Hrs, Hri, read_number.
  rewrite (read_absorb (VTensor cond)) by (by cbn; rewrite Hcs).
  rewrite (read_absorb (VTensor m))
    by (cbn; rewrite Hms; apply broadcast_shapes_refl).
  rewrite (read_tensor cond), Hci, truthy_of_bool, Hcs, read_number.
  rewrite (read_absorb (VTensor ta)) by (cbn; apply broadcast_shapes_refl).
  destruct (elem_eqb _ _); [done|].
  rewrite (read_tensor m), Hmi, Hms.
  rewrite (read_absorb (VTensor ta)) by done.
  rewrite (read_absorb (VTensor l)) by (by cbn; rewrite Hls).
  by rewrite (read_tensor l), Hli, Hls.
Qed.

(** C1.  Whenever at least one operand of [_xlog1py] is a tensor (and the
    operand shapes broadcast to [s]) the call returns a tensor of shape [s]
    whose element at every position is NaN where [b] is NaN, whatever [a]
    is there; is 0 where [b] is not NaN and [a == 0]; and is
    [a * log1p(b)] at every other position. *)
Theorem xlog1py_pointwise (a b : value) (s : list nat) :
  isinstance_TensorLike a || isinstance_TensorLike b = true →
  broadcast_shapes (vshape a) (vshape b) = Some s →
  ∃ r, _xlog1py a b = Ok r
       ∧ shape r = s
       ∧ ∀ idx,
           item r idx =
           if is_nan (read b idx) then NaN
           else if elem_eqb (read a idx) (Fin 0) then Fin 0
           else elem_mul (read a idx) (prims_log1p (read b idx)).
Proof.
  intros Ht Hs. unfold _xlog1py. rewrite Ht.
  destruct a as [ta|na], b as [tb|nb]; try discriminate Ht;
    cbn [assert isinstance_TensorLike]; rewrite bind_Ok.
  - destruct (is_cpu_scalar_tensor (VTensor tb)).
    + exact (xlog1py_chain ta (prims_device_put tb (device ta)) s Hs).
    + exact (xlog1py_chain ta tb s Hs).
  - exact (xlog1py_chain ta (prims_scalar_tensor nb (dtype ta) (device ta)) s Hs).
  - exact (xlog1py_chain (prims_scalar_tensor na (dtype tb) (device tb)) tb s Hs).
Qed.


End xlog1py.

(** ** [logit] *)

Lemma elem_sub_one_fin q : elem_sub (Fin 1) (Fin q) = Fin (1 + - q).
Proof. done. Qed.

Lemma elem_ltb_fin p q : elem_ltb (Fin p) (Fin q) = true ↔ (p < q)%Q.
Proof.
  cbn. rewrite Qlt_alt. destruct (p ?= q)%Q; split; congruence.
Qed.

Lemma elem_div_neg_pos p q :
  (p < 0)%Q → (0 < q)%Q → elem_ltb (elem_div (Fin p) (Fin q)) (Fin 0) = true.
Proof.
  intros Hp Hq. cbn [elem_div].
  destruct (Qeq_bool q 0) eqn:E.
  - apply Qeq_bool_iff in E. lra.
  - apply elem_ltb_fin, Qlt_shift_div_r; lra.
Qed.

Lemma elem_div_pos_neg p q :
  (0 < p)%Q → (q < 0)%Q → elem_ltb (elem_div (Fin p) (Fin q)) (Fin 0) = true.
Proof.
  intros Hp Hq. cbn [elem_div].
  destruct (Qeq_bool q 0) eqn:E.
  - apply Qeq_bool_iff in E. lra.
  - apply elem_ltb_fin.
    assert (p / q == (- p) / (- q))%Q as -> by (field; lra).
    apply Qlt_shift_div_r; lra.
Qed.

Section logit.
Context `{Backend}.

Lemma logit_ok (self : Tensor) (eps : option elem) :
  ∃ r, logit self eps = Ok r
       ∧ shape r = shape self
       ∧ ∀ idx,
           item r idx =
           let eps := default (Fin (-1)) eps in
           let x' := clamp (read (VTensor self) idx) eps (elem_sub (Fin 1) eps) in
           prims_log (elem_div x' (elem_sub (Fin 1) x')).
Proof.
  unfold logit, torch_clamp.
  set (eps' := match eps with None => Fin (-1) | Some e => e end).
  destruct (elementwise_unary_ok "clamp"
              (λ x, clamp x eps' (elem_sub (Fin 1) eps')) self)
    as (c & -> & Hcs & Hci).
  rewrite bind_Ok.
  destruct (elementwise_binary_ok "rsub" elem_sub
              (VNumber (NInt 1)) (VTensor c) (shape self))
    as (d & -> & Hds & Hdi);
    [done|cbn; rewrite Hcs; apply broadcast_shapes_nil_l|].
  rewrite bind_Ok.
  destruct (elementwise_binary_ok "div" elem_div
              (VTensor c) (VTensor d) (shape self))
    as (q & -> & Hqs & Hqi);
    [done|cbn; rewrite Hcs, Hds; apply broadcast_shapes_refl|].
  rewrite bind_Ok.
  destruct (elementwise_unary_ok "log" prims_log q) as (r & -> & Hrs & Hri).
  exists r. split; [done|]. split; [congruence|]. intros idx.
  rewrite Hri, Hqi, !read_tensor, Hdi, read_number, read_tensor, !Hci.
  rewrite Hds, Hcs, !broadcast_index_idemp.
  by destruct eps.
Qed.

Hypothesis log_domain :
  ∀ e, is_nan e || elem_ltb e (Fin 0) = true → prims_log e = NaN.

Lemma clamp_default_invisible (x : elem) :
  let x' := clamp x (Fin (-1)) (elem_sub (Fin 1) (Fin (-1))) in
  prims_log (elem_div x' (elem_sub (Fin 1) x'))
  = prims_log (elem_div x (elem_sub (Fin 1) x)).
Proof.
  intros x'. subst x'. destruct x as [| | |q].
  - done.
  - cbn. by rewrite !log_domain.
  - cbn. by rewrite !log_domain.
  - unfold clamp. rewrite !elem_sub_one_fin.
    destruct (elem_ltb (Fin q) (Fin (-1))) eqn:Hlo.
    { apply elem_ltb_fin in Hlo. rewrite !elem_sub_one_fin.
      rewrite (log_domain (elem_div (Fin q) _)).
      - by apply log_domain.
      - apply orb_true_iff; right. apply elem_div_neg_pos; lra. }
    destruct (elem_ltb (Fin (1 + - (-1))) (Fin q)) eqn:Hhi; [|done].
    apply elem_ltb_fin in Hhi. rewrite !elem_sub_one_fin.
    rewrite (log_domain (elem_div (Fin q) _)).
    + by apply log_domain.
    + apply orb_true_iff; right. apply elem_div_pos_neg; lra.
Qed.

(** C2.  [logit(x, eps=None)] is [logit(x, eps=-1.0)].  With [eps] unset the
    result at every position is [log(x / (1 - x))]: the clamp step, which
    then has the bounds -1 and 2, returns every [x] between them (and NaN)
    as it is, and everywhere else both quotients are negative or NaN, where
    [log] is NaN.  For a given [eps] the result is [log(x' / (1 - x'))]
    with [x'] the clamp of [x] to [[eps, 1 - eps]]. *)
Theorem logit_default_eps (self : Tensor) :
  logit self None = logit self (Some (Fin (-1)))
  ∧ (∃ r, logit self None = Ok r
          ∧ shape r = shape self
          ∧ ∀ idx,
              let x := read (VTensor self) idx in
              item r idx = prims_log (elem_div x (elem_sub (Fin 1) x)))
  ∧ (∀ x, elem_ltb x (Fin (-1)) = false → elem_ltb (Fin 2) x = false →
          clamp x (Fin (-1)) (elem_sub (Fin 1) (Fin (-1))) = x)
  ∧ (∀ eps, ∃ r,
        logit self (Some eps) = Ok r
        ∧ shape r = shape self
        ∧ ∀ idx,
            let x := read (VTensor self) idx in
            let x' := clamp x eps (elem_sub (Fin 1) eps) in
            item r idx = prims_log (elem_div x' (elem_sub (Fin 1) x'))).
Proof.
  split; [done|]. split; [|split].
  - destruct (logit_ok self None) as (r & Hr & Hs & Hi).
    exists r. split; [done|]. split; [done|]. intros idx x.
    rewrite Hi. apply clamp_default_invisible.
  - intros x Hlo Hhi. unfold clamp. rewrite Hlo.
    change (elem_sub (Fin 1) (Fin (-1))) with (Fin 2). by rewrite Hhi.
  - intros eps. destruct (logit_ok self (Some eps)) as (r & Hr & Hs & Hi).
    exists r. split; [done|]. split; [done|]. intros idx x x'. apply Hi.
Qed.

End logit.

(** ** Type promotion of the declared operators *)

Lemma widest_float_or_complex_snoc ds d :
  widest_float_or_complex (ds ++ [d]) =
  if is_float_or_complex d then
    match widest_float_or_complex ds with
    | None => Some d
    | Some w => if (width w <? width d)%nat then Some d else Some w
    end
  else widest_float_or_complex ds.
Proof. unfold widest_float_or_complex. by rewrite foldl_app. Qed.

Lemma widest_float_or_complex_spec ds :
  match widest_float_or_complex ds with
  | Some d =>
      d ∈ ds ∧ is_float_or_complex d = true
      ∧ ∀ d', d' ∈ ds → is_float_or_complex d' = true →
              (width d' ≤ width d)%nat
  | None => ∀ d', d' ∈ ds → is_float_or_complex d' = false
  end.
Proof.
  induction ds as [|d ds IH] using rev_ind.
  - cbn. intros d' Hd'. by apply elem_of_nil in Hd'.
  - rewrite widest_float_or_complex_snoc.
    destruct (is_float_or_complex d) eqn:Hd.
    + destruct (widest_float_or_complex ds) as [w|].
      * destruct IH as (Hin & Hw & Hmax).
        destruct (Nat.ltb_spec (width w) (width d)) as [Hlt|Hge].
        -- split; [set_solver|]. split; [done|].
           intros d' [Hd'|Hd']%elem_of_app Hfc.
           ++ specialize (Hmax _ Hd' Hfc). lia.
           ++ apply list_elem_of_singleton in Hd'. by subst.
        -- split; [set_solver|]. split; [done|].
           intros d' [Hd'|Hd']%elem_of_app Hfc.
           ++ by apply Hmax.
           ++ apply list_elem_of_singleton in Hd'. by subst.
      * split; [set_solver|]. split; [done|].
        intros d' [Hd'|Hd']%elem_of_app Hfc.
        -- rewrite (IH _ Hd') in Hfc. done.
        -- apply list_elem_of_singleton in Hd'. by subst.
    + destruct (widest_float_or_complex ds) as [w|].
      * destruct IH as (Hin & Hw & Hmax).
        split; [set_solver|]. split; [done|].
        intros d' [Hd'|Hd']%elem_of_app Hfc.
        -- by apply Hmax.
        -- apply list_elem_of_singleton in Hd'. congruence.
      * intros d' [Hd'|Hd']%elem_of_app.
        -- by apply IH.
        -- apply list_elem_of_singleton in Hd'. by subst.
Qed.

(** C3.  Every operator that the module declares ([i1], [i0e], [i1e],
    [logit], [xlog1py], [zeta]) has the integer-to-float promotion kind, and
    under that kind: operands that are all boolean or integer give the
    default floating dtype; otherwise the result is a floating/complex dtype
    of the operands that no floating/complex operand exceeds in width (and
    promotion only fails, with UnsupportedDtype, when no operand is floating
    or complex). *)
Theorem declared_int_to_float (op : ReferenceOperator) :
  op ∈ declared.__all__ →
  ref_name op ∈ ["i1"; "i0e"; "i1e"; "logit"; "xlog1py"; "zeta"]
  ∧ type_promotion_kind op = INT_TO_FLOAT
  ∧ ∀ (default_dtype : torch.dtype) (ds : list torch.dtype),
      if forallb is_boolean_or_integer ds
      then promote default_dtype (type_promotion_kind op) ds = Ok default_dtype
      else match promote default_dtype (type_promotion_kind op) ds with
           | Ok d =>
               d ∈ ds ∧ is_float_or_complex d = true
               ∧ ∀ d', d' ∈ ds → is_float_or_complex d' = true →
                       (width d' ≤ width d)%nat
           | Raise e =>
               e = UnsupportedDtype
               ∧ ∀ d', d' ∈ ds → is_float_or_complex d' = false
           end.
Proof.
  intros Hop.
  assert (ref_name op ∈ ["i1"; "i0e"; "i1e"; "logit"; "xlog1py"; "zeta"]
          ∧ type_promotion_kind op = INT_TO_FLOAT) as [Hname Hkind].
  { unfold declared.__all__ in Hop.
    repeat (apply elem_of_cons in Hop as [->|Hop]; [split; [set_solver|done]|]).
    by apply elem_of_nil in Hop. }
  split; [done|]. split; [done|]. intros default_dtype ds.
  rewrite Hkind. unfold promote.
  destruct (forallb is_boolean_or_integer ds); [done|].
  pose proof (widest_float_or_complex_spec ds) as Hw.
  by destruct (widest_float_or_complex ds).
Qed.

(** ** Opset-conditional rules *)

Lemma expected_opset_fails_name_mapping_snoc fails fail :
  expected_opset_fails_name_mapping (fails ++ [fail]) =
  <[XfailOpset.op_name fail := fail]> (expected_opset_fails_name_mapping fails).
Proof. unfold expected_opset_fails_name_mapping. by rewrite foldl_app. Qed.

(** C6.  The rule that the suite consults for "sqrt" expects a failure
    exactly for bfloat16 on an opset before 13. *)
Theorem sqrt_should_fail :
  ∃ fail,
    expected_opset_fails_name_mapping (EXPECTED_OPSET_FAILS declared_tables)
      !! "sqrt" = Some fail
    ∧ ∀ (version : Z) (dtype : torch.dtype),
        XfailOpset.should_fail fail version dtype = true
        ↔ dtype = torch.bfloat16 ∧ version < 13.
Proof.
  eexists. split.
  - cbn. apply lookup_insert_eq.
  - intros version dtype.
    unfold XfailOpset.should_fail, XfailOpset._contains_opset,
      XfailOpset._contains_dtype, opsets_before. cbn.
    rewrite orb_false_r, andb_true_iff, Z.ltb_lt, bool_decide_eq_true.
    rewrite list_elem_of_singleton. tauto.
Qed.

(** C10.  A rule declared without dtypes expects a failure on an opset
    whatever the dtype is: [should_fail] is then the opset test alone. *)
Theorem should_fail_without_dtypes (self : XfailOpset.t) :
  XfailOpset.dtypes self = None →
  ∀ (version : Z) (dtype : torch.dtype),
    XfailOpset.should_fail self version dtype
    = XfailOpset._contains_opset self version.
Proof.
  intros Hnone version dtype.
  unfold XfailOpset.should_fail, XfailOpset._contains_dtype.
  rewrite Hnone. apply andb_true_r.
Qed.

Lemma should_fail_without_dtypes_witness :
  let rule :=
    XfailOpset.mk "sqrt" [OpsetPred (opsets_before 13)] None None "unspecified" in
  XfailOpset.dtypes rule = None
  ∧ XfailOpset.should_fail rule 9 torch.float32
    = XfailOpset._contains_opset rule 9
  ∧ XfailOpset.should_fail rule 9 torch.float32 = true.
Proof.
  intros rule. split; [reflexivity|]. split; [|reflexivity].
  apply (should_fail_without_dtypes rule); reflexivity.
Defined.

(** ** [skip_ops] *)

Lemma make_ops_mapping_snoc all_opinfos info :
  make_ops_mapping (all_opinfos ++ [info]) =
  <[opinfo_key info := length all_opinfos]> (make_ops_mapping all_opinfos).
Proof.
  unfold make_ops_mapping. rewrite imap_app, foldl_app. cbn.
  by rewrite Nat.add_0_r.
Qed.

Lemma make_ops_mapping_Some all_opinfos key i :
  make_ops_mapping all_opinfos !! key = Some i →
  ∃ info, all_opinfos !! i = Some info ∧ opinfo_key info = key.
Proof.
  induction all_opinfos as [|info l IH] using rev_ind.
  - done.
  - rewrite make_ops_mapping_snoc, lookup_insert.
    case_decide as Hk.
    + intros [= <-]. exists info. by rewrite list_lookup_middle.
    + intros (info' & Hl & Hkey)%IH. exists info'.
      split; [|done]. by apply lookup_app_l_Some.
Qed.

Lemma make_ops_mapping_None all_opinfos key :
  make_ops_mapping all_opinfos !! key = None ↔
  key ∉ opinfo_key <$> all_opinfos.
Proof.
  induction all_opinfos as [|info l IH] using rev_ind.
  - cbn. split; [intros _; apply not_elem_of_nil|done].
  - rewrite make_ops_mapping_snoc, lookup_insert, fmap_app. cbn.
    rewrite not_elem_of_app, list_elem_of_singleton.
    case_decide as Hk; [split; [done|intros [_ []]; done]|].
    rewrite IH. intuition congruence.
Qed.

Lemma skip_ops_loop_spec ops_mapping tc bt to_skip all_opinfos :
  match skip_ops_loop ops_mapping tc bt to_skip all_opinfos with
  | Ok all_opinfos' =>
      (∀ rule, rule ∈ to_skip → is_Some (ops_mapping !! rule_key rule))
      ∧ ∀ i,
          all_opinfos' !! i =
          (λ info, OpInfo.set_decorators info
                     (OpInfo.decorators info
                      ++ attached ops_mapping tc bt to_skip i))
            <$> all_opinfos !! i
  | Raise e =>
      e = AssertionError "Couldn't find OpInfo"
      ∧ ∃ rule, rule ∈ to_skip ∧ ops_mapping !! rule_key rule = None
  end.
Proof.
  revert all_opinfos. induction to_skip as [|rule to_skip IH]; intros l.
  - cbn. split; [intros rule Hr; by apply elem_of_nil in Hr|].
    intros i. unfold attached. cbn. destruct (l !! i) as [info|]; [|done].
    cbn. unfold OpInfo.set_decorators. by rewrite app_nil_r.
  - cbn [skip_ops_loop].
    destruct (ops_mapping !! rule_key rule) as [i0|] eqn:Hk.
    + specialize (IH (alter (λ opinfo,
                        OpInfo.set_decorators opinfo
                          (OpInfo.decorators opinfo ++ [new_decorator tc bt rule]))
                      i0 l)).
      destruct (skip_ops_loop _ _ _ to_skip _) as [l'|e].
      * destruct IH as [Hres Hl']. split.
        { intros r [->|Hr]%elem_of_cons; [by rewrite Hk|by apply Hres]. }
        intros i. rewrite Hl'. unfold attached.
        rewrite filter_cons. destruct (decide (i0 = i)) as [->|Hne].
        -- rewrite list_lookup_alter_eq.
           rewrite decide_True by done.
           destruct (l !! i) as [info|]; [|done]. cbn.
           unfold OpInfo.set_decorators. cbn. by rewrite <- app_assoc.
        -- rewrite list_lookup_alter_ne by done.
           rewrite decide_False by congruence. done.
      * destruct IH as [-> (r & Hr & Hnone)]. split; [done|].
        exists r. split; [apply elem_of_cons; by right|done].
    + split; [done|]. exists rule. split; [apply elem_of_cons; by left|done].
Qed.

Lemma skip_ops_spec all_opinfos tc bt to_skip :
  match skip_ops all_opinfos tc bt to_skip with
  | Ok all_opinfos' =>
      (∀ rule, rule ∈ to_skip → rule_key rule ∈ opinfo_key <$> all_opinfos)
      ∧ ∀ i,
          all_opinfos' !! i =
          (λ info, OpInfo.set_decorators info
                     (OpInfo.decorators info
                      ++ attached (make_ops_mapping all_opinfos) tc bt to_skip i))
            <$> all_opinfos !! i
  | Raise e =>
      e = AssertionError "Couldn't find OpInfo"
      ∧ ∃ rule, rule ∈ to_skip ∧ rule_key rule ∉ opinfo_key <$> all_opinfos
  end.
Proof.
  unfold skip_ops.
  pose proof (skip_ops_loop_spec (make_ops_mapping all_opinfos) tc bt to_skip
                all_opinfos) as Hspec.
  destruct (skip_ops_loop _ _ _ _ _) as [l'|e].
  - destruct Hspec as [Hres Hl']. split; [|done].
    intros rule Hrule. destruct (Hres rule Hrule) as [i Hi].
    destruct (decide (rule_key rule ∈ opinfo_key <$> all_opinfos)); [done|].
    apply make_ops_mapping_None in n. congruence.
  - destruct Hspec as [-> (rule & Hrule & Hnone)]. split; [done|].
    exists rule. split; [done|]. by apply make_ops_mapping_None.
Qed.

(** C5, as the code has it.  When a declared skip or xfail rule has a key
    that no operator of the registry has, building the suite raises an
    AssertionError; and when the suite is built, every declared skip or
    xfail rule has put its decorator on an operator with its key. *)
Theorem build_fails_on_unresolved_rule (tables : Tables) (OPS_DB : list OpInfo.t) :
  (∀ rule,
      rule ∈ EXPECTED_SKIPS_OR_FAILS tables →
      rule_key rule ∉ opinfo_key <$> OPS_DB →
      ∃ msg, build_TestConsistency tables OPS_DB = Raise (AssertionError msg))
  ∧ (∀ OPS_DB' rule,
       build_TestConsistency tables OPS_DB = Ok OPS_DB' →
       rule ∈ EXPECTED_SKIPS_OR_FAILS tables →
       ∃ i info,
         OPS_DB' !! i = Some info
         ∧ opinfo_key info = rule_key rule
         ∧ new_decorator "TestConsistency" "test_output_match" rule
             ∈ OpInfo.decorators info).
Proof.
  unfold build_TestConsistency.
  pose proof (skip_ops_spec OPS_DB "TestConsistency" "test_output_match"
                (EXPECTED_SKIPS_OR_FAILS tables)) as Hspec.
  destruct (skip_ops _ _ _ _) as [db'|e].
  - destruct Hspec as [Hres Hl']. split.
    + intros rule Hrule Hkey. exfalso. apply Hkey. by apply Hres.
    + intros ? rule [= <-] Hrule.
      destruct (make_ops_mapping OPS_DB !! rule_key rule) as [i|] eqn:Hi.
      2:{ apply make_ops_mapping_None in Hi. exfalso. apply Hi. by apply Hres. }
      destruct (make_ops_mapping_Some _ _ _ Hi) as (info & Hinfo & Hkey).
      exists i. eexists. rewrite Hl', Hinfo. split; [done|].
      split; [done|]. cbn. apply elem_of_app. right.
      unfold attached. apply list_elem_of_fmap_2, list_elem_of_filter. done.
  - destruct Hspec as [-> _]. split; [by eexists|done].
Qed.

(** C5 as stated fails for opset-conditional rules: a rule that names an
    operator absent from the registry lets the suite be built, and the
    run of every operator of the registry is what it is without the rule. *)
Lemma unknown_opset_rule_is_ignored :
  (∃ rule, rule ∈ EXPECTED_OPSET_FAILS tables_with_unknown_opset_rule
           ∧ ∀ info, info ∈ sqrt_registry →
                     OpInfo.name info ≠ XfailOpset.op_name rule)
  ∧ build_TestConsistency tables_with_unknown_opset_rule sqrt_registry
    = Ok sqrt_registry
  ∧ ∀ opset dtype,
      select_context_manager tables_with_unknown_opset_rule sqrt_info opset dtype
      = nullcontext.
Proof.
  split; [|split].
  - eexists. split; [apply list_elem_of_here|].
    intros info ->%list_elem_of_singleton. done.
  - reflexivity.
  - intros opset dtype. unfold select_context_manager. cbn.
    by rewrite lookup_insert_ne.
Qed.

Lemma expected_opset_fails_name_mapping_last fails op_name :
  expected_opset_fails_name_mapping fails !! op_name
  = last (filter (λ fail, XfailOpset.op_name fail = op_name) fails).
Proof.
  induction fails as [|fail fails IH] using rev_ind; [done|].
  rewrite expected_opset_fails_name_mapping_snoc, lookup_insert, filter_app.
  rewrite filter_cons, filter_nil.
  case_decide as Hn.
  - by rewrite last_snoc.
  - by rewrite app_nil_r.
Qed.




(** ** [test_output_match] *)

Section runner.
Context `{Collaborators}.

Lemma test_output_match_runs tables dtype op :
  OpInfo.name op ∈ ALLOWLIST_OP tables →
  test_output_match tables "cpu" dtype op =
  Ok (subtests
        ((λ p : SampleInput * Z, run_subtest tables dtype op p.1 p.2)
           <$> product (OpInfo.sample_inputs op "cpu" dtype) TESTED_OPSETS)).
Proof.
  intros Hallow. unfold test_output_match.
  rewrite (bool_decide_eq_true_2 ("cpu" = "cpu")) by done.
  unfold assert. rewrite bind_Ok.
  by rewrite (bool_decide_eq_true_2 _ Hallow).
Qed.

Lemma run_subtest_sample_opset tables dtype op cpu_sample opset :
  st_sample (run_subtest tables dtype op cpu_sample opset) = cpu_sample
  ∧ st_opset (run_subtest tables dtype op cpu_sample opset) = opset.
Proof. unfold run_subtest. by destruct (run_block _ _ _ _). Qed.

Lemma run_subtest_calls tables dtype op cpu_sample opset :
  st_calls (run_subtest tables dtype op cpu_sample opset)
  = (run_block dtype (model_of op cpu_sample) (inputs_of cpu_sample) opset).1.
Proof.
  unfold run_subtest, model_of, inputs_of. by destruct (run_block _ _ _ _).
Qed.

Lemma run_block_bfloat16 model inputs opset :
  (run_block torch.bfloat16 model inputs opset).1 =
  let export := torch_onnx_export model inputs opset None in
  match raises export, raises onnx_load with
  | Some _, _ => [export]
  | None, Some _ => [export; onnx_load]
  | None, None => [export; onnx_load; onnx_checker_check_model true]
  end.
Proof.
  unfold run_block. cbn.
  destruct (raises (torch_onnx_export _ _ _ _)); [done|].
  by destruct (raises onnx_load).
Qed.

Lemma run_block_full dtype model inputs opset :
  dtype ≠ torch.bfloat16 →
  (run_block dtype model inputs opset).1 =
  [verification_verify model inputs [] opset true ORT_PROVIDERS true true true].
Proof.
  intros Hd. unfold run_block. by rewrite bool_decide_eq_false_2.
Qed.

Lemma subtests_cover tables dtype op :
  (λ st, (st_sample st, st_opset st))
    <$> ((λ p : SampleInput * Z, run_subtest tables dtype op p.1 p.2)
           <$> product (OpInfo.sample_inputs op "cpu" dtype) TESTED_OPSETS)
  = product (OpInfo.sample_inputs op "cpu" dtype) TESTED_OPSETS.
Proof.
  rewrite <- list_fmap_compose. rewrite <- (list_fmap_id (product _ _)) at 2.
  apply list_fmap_ext. intros i [s o] _. cbn.
  by destruct (run_subtest_sample_opset tables dtype op s o) as [-> ->].
Qed.

(** C7.  For bfloat16, the test of an allow-listed operator runs one
    sub-test for each (sample, opset), and each sub-test exports the wrapper
    model, loads the exported graph and checks it with [full_check=True]
    (stopping at the first call that raises); no sub-test calls
    [verification.verify], the only call that runs the graph and compares
    outputs. *)
Theorem bfloat16_exports_and_checks_only (tables : Tables) (op : OpInfo.t) :
  OpInfo.name op ∈ ALLOWLIST_OP tables →
  ∃ sts,
    test_output_match tables "cpu" torch.bfloat16 op = Ok (subtests sts)
    ∧ (λ st, (st_sample st, st_opset st)) <$> sts
      = product (OpInfo.sample_inputs op "cpu" torch.bfloat16) TESTED_OPSETS
    ∧ Forall
        (λ st,
           let export :=
             torch_onnx_export (model_of op (st_sample st))
                               (inputs_of (st_sample st)) (st_opset st) None in
           st_calls st =
             match raises export, raises onnx_load with
             | Some _, _ => [export]
             | None, Some _ => [export; onnx_load]
             | None, None => [export; onnx_load; onnx_checker_check_model true]
             end
           ∧ Forall (λ c, executes_graph c = false) (st_calls st))
        sts.
Proof.
  intros Hallow. eexists. split; [by apply test_output_match_runs|].
  split; [apply subtests_cover|].
  apply Forall_fmap, Forall_forall. intros [s o] _. cbn.
  destruct (run_subtest_sample_opset tables torch.bfloat16 op s o) as [-> ->].
  rewrite run_subtest_calls, run_block_bfloat16. cbn.
  destruct (raises (torch_onnx_export _ _ _ _)), (raises onnx_load);
    (split; [done|]); repeat constructor.
Qed.

(** C4, as the code has it.  For a dtype other than bfloat16 every
    sub-test makes one call, [verification.verify] with
    [keep_initializers_as_inputs=True]; for bfloat16 the call of
    [torch.onnx.export] passes the opset version and leaves
    [keep_initializers_as_inputs] out. *)
Theorem initializers_as_inputs_by_path (tables : Tables)
    (dtype : torch.dtype) (op : OpInfo.t) :
  OpInfo.name op ∈ ALLOWLIST_OP tables →
  ∃ sts,
    test_output_match tables "cpu" dtype op = Ok (subtests sts)
    ∧ (λ st, (st_sample st, st_opset st)) <$> sts
      = product (OpInfo.sample_inputs op "cpu" dtype) TESTED_OPSETS
    ∧ Forall
        (λ st,
           let model := model_of op (st_sample st) in
           let inputs := inputs_of (st_sample st) in
           if bool_decide (dtype = torch.bfloat16) then
             ∃ rest, st_calls st
                     = torch_onnx_export model inputs (st_opset st) None :: rest
                     ∧ Forall (λ c, exports_with_initializers_as_inputs c = true)
                              rest
           else
             st_calls st =
               [verification_verify model inputs [] (st_opset st) true
                                    ORT_PROVIDERS true true true]
             ∧ Forall (λ c, exports_with_initializers_as_inputs c = true)
                      (st_calls st))
        sts.
Proof.
  intros Hallow. eexists. split; [by apply test_output_match_runs|].
  split; [apply subtests_cover|].
  apply Forall_fmap, Forall_forall. intros [s o] _. cbn.
  destruct (run_subtest_sample_opset tables dtype op s o) as [-> ->].
  rewrite run_subtest_calls. case_bool_decide as Hd.
  - subst dtype. rewrite run_block_bfloat16. cbn.
    destruct (raises (torch_onnx_export _ _ _ _)), (raises onnx_load);
      eexists; (split; [reflexivity|]); repeat constructor.
  - rewrite run_block_full by done. split; [done|]. repeat constructor.
Qed.

End runner.

(** C4 as stated fails on the export-only path: the first sub-test of sqrt
    at bfloat16 exports without [keep_initializers_as_inputs]. *)
Lemma bfloat16_export_without_keep_initializers :
  match test_output_match (H := quiet_collaborators) declared_tables "cpu"
          torch.bfloat16 sqrt_info with
  | Ok (subtests (st :: _)) =>
      st_calls st =
        [torch_onnx_export (model_of sqrt_info sqrt_sample) (inputs_of sqrt_sample)
                           9 None;
         onnx_load;
         onnx_checker_check_model true]
      ∧ existsb (λ c, negb (exports_with_initializers_as_inputs c)) (st_calls st)
        = true
  | _ => False
  end.
Proof. vm_compute. done. Qed.

(** ** The properties at concrete inputs *)

Lemma log_series_domain (e : elem) :
  is_nan e || elem_ltb e (Fin 0) = true → log_series e = NaN.
Proof.
  destruct e as [| | |q]; cbn; try done.
  by destruct (q ?= 0)%Q.
Defined.

Lemma xlog1py_pointwise_witness :
  let a := VTensor (vector torch.float32 "cpu" [Fin 0; Fin 2]) in
  let b := VNumber (NFloat NaN) in
  isinstance_TensorLike a || isinstance_TensorLike b = true
  ∧ broadcast_shapes (vshape a) (vshape b) = Some [2%nat]
  ∧ ∃ r, _xlog1py (H := series_backend) a b = Ok r
         ∧ shape r = [2%nat]
         ∧ ∀ idx,
             item r idx =
             if is_nan (read b idx) then NaN
             else if elem_eqb (read a idx) (Fin 0) then Fin 0
             else elem_mul (read a idx)
                           (prims_log1p (Backend := series_backend) (read b idx)).
Proof.
  intros a b. split; [reflexivity|]. split; [reflexivity|].
  apply (xlog1py_pointwise a b [2%nat]); reflexivity.
Defined.


Lemma logit_default_eps_witness :
  let self := vector torch.float32 "cpu" [Fin 3; Fin (1 # 2)] in
  (∀ e, is_nan e || elem_ltb e (Fin 0) = true
        → prims_log (Backend := series_backend) e = NaN)
  ∧ logit (H := series_backend) self None
    = logit (H := series_backend) self (Some (Fin (-1)))
  ∧ ∃ r, logit (H := series_backend) self None = Ok r
         ∧ shape r = shape self
         ∧ ∀ idx,
             let x := read (VTensor self) idx in
             item r idx =
             prims_log (Backend := series_backend)
                       (elem_div x (elem_sub (Fin 1) x)).
Proof.
  intros self. split; [exact log_series_domain|].
  destruct (logit_default_eps (H := series_backend) log_series_domain self)
    as (Heq & Hnone & _).
  split; [exact Heq|exact Hnone].
Defined.

Lemma declared_int_to_float_witness :
  declared.xlog1py ∈ declared.__all__
  ∧ promote torch.float32 (type_promotion_kind declared.xlog1py)
            [torch.int64; torch.bool] = Ok torch.float32
  ∧ promote torch.float32 (type_promotion_kind declared.xlog1py)
            [torch.int64; torch.float16; torch.float64] = Ok torch.float64.
Proof.
  assert (declared.xlog1py ∈ declared.__all__) as Hin
    by (unfold declared.__all__; set_solver).
  split; [exact Hin|].
  destruct (declared_int_to_float declared.xlog1py Hin) as (_ & _ & Hp).
  split.
  - exact (Hp torch.float32 [torch.int64; torch.bool]).
  - reflexivity.
Defined.

Lemma bfloat16_exports_and_checks_only_witness :
  OpInfo.name sqrt_info ∈ ALLOWLIST_OP declared_tables
  ∧ ∃ sts,
      test_output_match (H := quiet_collaborators) declared_tables "cpu"
                        torch.bfloat16 sqrt_info = Ok (subtests sts)
      ∧ length sts = 9%nat.
Proof.
  assert (OpInfo.name sqrt_info ∈ ALLOWLIST_OP declared_tables) as Hin
    by (cbn; set_solver).
  split; [exact Hin|].
  destruct (bfloat16_exports_and_checks_only (H := quiet_collaborators)
              declared_tables sqrt_info Hin) as (sts & Hrun & Hcover & _).
  exists sts. split; [exact Hrun|].
  apply (f_equal length) in Hcover. rewrite length_fmap in Hcover.
  exact Hcover.
Defined.

Lemma initializers_as_inputs_by_path_witness :
  OpInfo.name sqrt_info ∈ ALLOWLIST_OP declared_tables
  ∧ ∃ sts,
      test_output_match (H := quiet_collaborators) declared_tables "cpu"
                        torch.float32 sqrt_info = Ok (subtests sts)
      ∧ length sts = 9%nat.
Proof.
  assert (OpInfo.name sqrt_info ∈ ALLOWLIST_OP declared_tables) as Hin
    by (cbn; set_solver).
  split; [exact Hin|].
  destruct (initializers_as_inputs_by_path (H := quiet_collaborators)
              declared_tables torch.float32 sqrt_info Hin)
    as (sts & Hrun & Hcover & _).
  exists sts. split; [exact Hrun|].
  apply (f_equal length) in Hcover. rewrite length_fmap in Hcover.
  exact Hcover.
Defined.

Lemma build_fails_on_unresolved_rule_witness :
  let rule :=
    xfail "ceil" EmptyString None (Some [torch.bfloat16; torch.float64])
          "Ceil not implemented for f64 and bf64 in onnx runtime" in
  rule ∈ EXPECTED_SKIPS_OR_FAILS declared_tables
  ∧ (rule_key rule ∉ opinfo_key <$> sqrt_registry)
  ∧ ∃ msg,
      build_TestConsistency declared_tables sqrt_registry
      = Raise (AssertionError msg).
Proof.
  intros rule.
  assert (rule ∈ EXPECTED_SKIPS_OR_FAILS declared_tables) as Hin
    by apply list_elem_of_here.
  assert (rule_key rule ∉ opinfo_key <$> sqrt_registry) as Hkey
    by (intros Hk%list_elem_of_singleton; discriminate Hk).
  split; [exact Hin|]. split; [exact Hkey|].
  exact (proj1 (build_fails_on_unresolved_rule declared_tables sqrt_registry)
               rule Hin Hkey).
Defined.


(** ** Evaluations *)

Example xlog1py_values :
  let a := VTensor (vector torch.float32 "cpu" [Fin 0; Fin 2; Fin 0]) in
  let b := VTensor (vector torch.float32 "cpu" [NaN; Fin 0; Fin 5]) in
  match _xlog1py (H := series_backend) a b with
  | Ok r =>
      shape r = [3%nat]
      ∧ item r [0%nat] = NaN
      ∧ elem_eqb (item r [1%nat]) (Fin 0) = true
      ∧ item r [2%nat] = Fin 0
  | Raise _ => False
  end.
Proof. vm_compute. done. Qed.

Example xlog1py_two_scalars :
  _xlog1py (H := series_backend) (VNumber (NInt 1)) (VNumber (NFloat (Fin 2)))
  = Raise (AssertionError EmptyString).
Proof. reflexivity. Qed.

Example xlog1py_shape_mismatch :
  is_ok (_xlog1py (H := series_backend)
           (VTensor (vector torch.float32 "cpu" [Fin 1; Fin 2]))
           (VTensor (vector torch.float32 "cpu" [Fin 1; Fin 2; Fin 3])))
  = false.
Proof. reflexivity. Qed.

Example clamp_default_bounds :
  clamp (Fin 3) (Fin (-1)) (elem_sub (Fin 1) (Fin (-1))) = Fin 2
  ∧ clamp (Fin (-5)) (Fin (-1)) (elem_sub (Fin 1) (Fin (-1))) = Fin (-1)
  ∧ clamp (Fin (1 # 2)) (Fin (-1)) (elem_sub (Fin 1) (Fin (-1))) = Fin (1 # 2).
Proof. repeat split. Qed.

Example logit_values :
  match logit (H := series_backend)
          (vector torch.float32 "cpu"
                  [Fin 3; Fin (1 # 2); Fin (-2); PInf; NaN; Fin 1])
          None with
  | Ok r =>
      shape r = [6%nat]
      ∧ item r [0%nat] = NaN
      ∧ elem_eqb (item r [1%nat]) (Fin 0) = true
      ∧ item r [2%nat] = NaN
      ∧ item r [3%nat] = NaN
      ∧ item r [4%nat] = NaN
      ∧ item r [5%nat] = PInf
  | Raise _ => False
  end.
Proof. vm_compute. done. Qed.

Example promote_values :
  promote torch.float32 INT_TO_FLOAT [torch.bool; torch.int64] = Ok torch.float32
  ∧ promote torch.float64 INT_TO_FLOAT [torch.uint8] = Ok torch.float64
  ∧ promote torch.float32 INT_TO_FLOAT [torch.int32; torch.float16]
    = Ok torch.float16
  ∧ promote torch.float32 INT_TO_FLOAT [torch.float32; torch.complex128]
    = Ok torch.complex128
  ∧ promote torch.float32 INT_TO_FLOAT [torch.qint8] = Raise UnsupportedDtype.
Proof. repeat split. Qed.

Example build_declared_tables :
  match build_TestConsistency declared_tables allowlist_registry with
  | Ok OPS_DB => (length ∘ OpInfo.decorators) <$> OPS_DB = [2; 1; 1]%nat
  | Raise _ => False
  end.
Proof. vm_compute. done. Qed.

Example build_without_ceil :
  build_TestConsistency declared_tables sqrt_registry
  = Raise (AssertionError "Couldn't find OpInfo").
Proof. vm_compute. done. Qed.

Example sqrt_context_managers :
  select_context_manager declared_tables sqrt_info 12 torch.bfloat16
  = assertRaises "Exception"
  ∧ select_context_manager declared_tables sqrt_info 13 torch.bfloat16
    = nullcontext
  ∧ select_context_manager declared_tables sqrt_info 12 torch.float32
    = nullcontext.
Proof. vm_compute. done. Qed.

Example tested_opsets :
  TESTED_OPSETS (H := quiet_collaborators) = [9; 10; 11; 12; 13; 14; 15; 16; 17].
Proof. reflexivity. Qed.

(* ===================================================================== *)
(** * Further properties of the suite *)
(* ===================================================================== *)

(** ** The dictionary of [skip_ops] *)

Lemma make_ops_mapping_lookup all_opinfos key i :
  make_ops_mapping all_opinfos !! key = Some i ↔
  (opinfo_key <$> all_opinfos) !! i = Some key
  ∧ ∀ j, (i < j)%nat → (opinfo_key <$> all_opinfos) !! j ≠ Some key.
Proof.
  revert i. induction all_opinfos as [|info l IH] using rev_ind; intros i.
  - cbn. split; [done|]. by intros [? _].
  - rewrite make_ops_mapping_snoc, lookup_insert, fmap_app. cbn.
    assert (length (opinfo_key <$> l) = length l) as Hlen by apply length_fmap.
    case_decide as Hk.
    + subst key. split.
      * intros [= <-]. split.
        -- by rewrite <- Hlen, list_lookup_middle.
        -- intros j Hj. rewrite lookup_ge_None_2; [done|].
           rewrite length_app. cbn. lia.
      * intros [Hi Hlast]. f_equal.
        destruct (decide (i < length l)%nat) as [Hlt|Hge].
        -- exfalso. apply (Hlast (length l) Hlt).
           by rewrite <- Hlen, list_lookup_middle.
        -- apply lookup_lt_Some in Hi. rewrite length_app in Hi. cbn in Hi. lia.
    + rewrite IH. split.
      * intros [Hi Hlast]. split.
        -- apply lookup_app_l_Some, Hi.
        -- intros j Hj. destruct (decide (j < length l)%nat) as [Hlt|Hge].
           ++ rewrite lookup_app_l by lia. by apply Hlast.
           ++ rewrite lookup_app_r by lia.
              destruct (j - length (opinfo_key <$> l))%nat; cbn;
                [by intros [= ?]|done].
      * intros [Hi Hlast].
        assert (i < length l)%nat as Hlt.
        { destruct (decide (i < length l)%nat) as [|Hge]; [done|].
          rewrite lookup_app_r in Hi by lia.
          destruct (i - length (opinfo_key <$> l))%nat; cbn in Hi;
            [by injection Hi|done]. }
        rewrite lookup_app_l in Hi by lia. split; [done|].
        intros j Hj Hjk. apply (Hlast j Hj). by apply lookup_app_l_Some.
Qed.

Lemma make_ops_mapping_keys l1 l2 :
  opinfo_key <$> l1 = opinfo_key <$> l2 →
  make_ops_mapping l1 = make_ops_mapping l2.
Proof.
  intros Hkeys. apply map_eq. intros key. apply option_eq. intros i.
  by rewrite !make_ops_mapping_lookup, Hkeys.
Qed.

(** X1.  In a registry whose keys are pairwise distinct the dictionary of
    [skip_ops] sends the key of each operator back to the position of that
    operator; in any registry it sends a key to the last operator that has
    it. *)
Theorem ops_mapping_round_trip (all_opinfos : list OpInfo.t) :
  (∀ key i,
      make_ops_mapping all_opinfos !! key = Some i →
      ∃ info, all_opinfos !! i = Some info ∧ opinfo_key info = key
              ∧ ∀ j info', (i < j)%nat → all_opinfos !! j = Some info' →
                           opinfo_key info' ≠ key)
  ∧ (NoDup (opinfo_key <$> all_opinfos) →
     ∀ i info, all_opinfos !! i = Some info →
               make_ops_mapping all_opinfos !! opinfo_key info = Some i).
Proof.
  split.
  - intros key i [Hi Hlast]%make_ops_mapping_lookup.
    rewrite list_lookup_fmap in Hi.
    destruct (all_opinfos !! i) as [info|] eqn:Hinfo; [|done].
    injection Hi as Hi. exists info. split; [done|]. split; [done|].
    intros j info' Hj Hinfo' Hkey. apply (Hlast j Hj).
    by rewrite list_lookup_fmap, Hinfo', <- Hkey.
  - intros Hnodup i info Hinfo. apply make_ops_mapping_lookup.
    assert ((opinfo_key <$> all_opinfos) !! i = Some (opinfo_key info)) as Hi
      by (by rewrite list_lookup_fmap, Hinfo).
    split; [done|]. intros j Hj Hjk.
    pose proof (NoDup_lookup _ _ _ _ Hnodup Hi Hjk). lia.
Qed.

(** ** What [skip_ops] keeps and how it composes *)

Lemma skip_ops_keys all_opinfos tc bt to_skip all_opinfos' :
  skip_ops all_opinfos tc bt to_skip = Ok all_opinfos' →
  opinfo_key <$> all_opinfos' = opinfo_key <$> all_opinfos.
Proof.
  intros Hok. pose proof (skip_ops_spec all_opinfos tc bt to_skip) as Hspec.
  rewrite Hok in Hspec. destruct Hspec as [_ Hl'].
  apply list_eq. intros i. rewrite !list_lookup_fmap, Hl'.
  by destruct (all_opinfos !! i).
Qed.

(** X2.  [skip_ops] changes decorators only: the registry keeps its length
    and, position by position, the name, the variant name and the sample
    inputs of each operator, and the decorators an operator had stay in
    front of the ones it gets; so the dictionary built from the decorated
    registry is the one built from the original. *)
Theorem skip_ops_keeps_registry
    (all_opinfos : list OpInfo.t) (tc bt : string)
    (to_skip : list DecorateMeta.t) (all_opinfos' : list OpInfo.t) :
  skip_ops all_opinfos tc bt to_skip = Ok all_opinfos' →
  length all_opinfos' = length all_opinfos
  ∧ make_ops_mapping all_opinfos' = make_ops_mapping all_opinfos
  ∧ ∀ i info', all_opinfos' !! i = Some info' →
      ∃ info, all_opinfos !! i = Some info
              ∧ OpInfo.name info' = OpInfo.name info
              ∧ OpInfo.variant_test_name info' = OpInfo.variant_test_name info
              ∧ OpInfo.sample_inputs info' = OpInfo.sample_inputs info
              ∧ OpInfo.decorators info `prefix_of` OpInfo.decorators info'.
Proof.
  intros Hok. pose proof (skip_ops_keys _ _ _ _ _ Hok) as Hkeys.
  split; [|split].
  - apply (f_equal length) in Hkeys. by rewrite !length_fmap in Hkeys.
  - by apply make_ops_mapping_keys.
  - pose proof (skip_ops_spec all_opinfos tc bt to_skip) as Hspec.
    rewrite Hok in Hspec. destruct Hspec as [_ Hl'].
    intros i info' Hi. rewrite Hl' in Hi.
    destruct (all_opinfos !! i) as [info|]; [|done].
    injection Hi as <-. exists info. do 4 (split; [done|]).
    by eexists.
Qed.

Lemma skip_ops_loop_app ops_mapping tc bt to_skip1 to_skip2 all_opinfos :
  skip_ops_loop ops_mapping tc bt (to_skip1 ++ to_skip2) all_opinfos
  = skip_ops_loop ops_mapping tc bt to_skip1 all_opinfos
    ≫= skip_ops_loop ops_mapping tc bt to_skip2.
Proof.
  revert all_opinfos. induction to_skip1 as [|rule to_skip1 IH]; intros l.
  - done.
  - cbn [app skip_ops_loop].
    destruct (ops_mapping !! rule_key rule); [apply IH|done].
Qed.

(** X3.  Decorating with two lists of rules one after the other is
    decorating with their concatenation, failures included: the first
    unresolved rule of either list makes both fail. *)
Theorem skip_ops_app
    (all_opinfos : list OpInfo.t) (tc bt : string)
    (to_skip1 to_skip2 : list DecorateMeta.t) :
  skip_ops all_opinfos tc bt (to_skip1 ++ to_skip2)
  = skip_ops all_opinfos tc bt to_skip1
    ≫= λ all_opinfos', skip_ops all_opinfos' tc bt to_skip2.
Proof.
  unfold skip_ops at 1. rewrite skip_ops_loop_app.
  fold (skip_ops all_opinfos tc bt to_skip1).
  destruct (skip_ops all_opinfos tc bt to_skip1) as [l'|e] eqn:Hok; [|done].
  rewrite !bind_Ok. unfold skip_ops.
  apply skip_ops_keys, make_ops_mapping_keys in Hok. by rewrite Hok.
Qed.

(** X4.  One rule decorates one operator: the last one of the registry
    that has the key of the rule gets the new decorator behind its own, and
    the rest of the registry stays as it is. *)
Theorem skip_ops_single_rule
    (all_opinfos : list OpInfo.t) (tc bt : string) (rule : DecorateMeta.t)
    (all_opinfos' : list OpInfo.t) :
  skip_ops all_opinfos tc bt [rule] = Ok all_opinfos' →
  ∃ i info,
    all_opinfos !! i = Some info
    ∧ opinfo_key info = rule_key rule
    ∧ (∀ j info', (i < j)%nat → all_opinfos !! j = Some info' →
                  opinfo_key info' ≠ rule_key rule)
    ∧ all_opinfos' =
      <[i := OpInfo.set_decorators info
               (OpInfo.decorators info ++ [new_decorator tc bt rule])]>
        all_opinfos.
Proof.
  unfold skip_ops. cbn [skip_ops_loop].
  destruct (make_ops_mapping all_opinfos !! rule_key rule) as [i|] eqn:Hi;
    [|done].
  intros [= <-].
  pose proof Hi as [Hkey Hlast]%make_ops_mapping_lookup.
  rewrite list_lookup_fmap in Hkey.
  destruct (all_opinfos !! i) as [info|] eqn:Hinfo; [|done].
  apply (inj Some) in Hkey. exists i, info. split; [done|]. split; [done|].
  split.
  - intros j info' Hj Hinfo' Hk. apply (Hlast j Hj).
    by rewrite list_lookup_fmap, Hinfo', <- Hk.
  - apply list_eq. intros j. destruct (decide (i = j)) as [<-|Hne].
    + rewrite list_lookup_alter_eq, Hinfo. cbn.
      rewrite list_lookup_insert_eq; [done|]. by apply lookup_lt_Some in Hinfo.
    + by rewrite list_lookup_alter_ne, list_lookup_insert_ne.
Qed.

Lemma total_decorators_alter (l : list OpInfo.t) (i : nat) (d : DecorateInfo.t) :
  (i < length l)%nat →
  total_decorators
    (alter (λ opinfo,
              OpInfo.set_decorators opinfo (OpInfo.decorators opinfo ++ [d]))
           i l)
  = S (total_decorators l).
Proof.
  unfold total_decorators. revert i.
  induction l as [|info l IH]; intros i Hi; cbn in Hi; [lia|].
  destruct i as [|i]; cbn.
  - rewrite length_app. cbn. lia.
  - rewrite IH by lia. lia.
Qed.

Lemma skip_ops_loop_total ops_mapping tc bt to_skip all_opinfos all_opinfos' :
  (∀ key i, ops_mapping !! key = Some i → (i < length all_opinfos)%nat) →
  skip_ops_loop ops_mapping tc bt to_skip all_opinfos = Ok all_opinfos' →
  total_decorators all_opinfos'
  = (total_decorators all_opinfos + length to_skip)%nat.
Proof.
  revert all_opinfos. induction to_skip as [|rule to_skip IH]; intros l Hm.
  - intros [= <-]. cbn. lia.
  - cbn [skip_ops_loop].
    destruct (ops_mapping !! rule_key rule) as [i|] eqn:Hi; [|done].
    intros Hok. apply IH in Hok.
    + rewrite Hok, total_decorators_alter by eauto. cbn. lia.
    + intros key j Hj. rewrite length_alter. eauto.
Qed.

(** X5.  When [skip_ops] succeeds every rule has added exactly one
    decorator: the number of decorators over the registry grows by the
    number of rules. *)
Theorem skip_ops_adds_one_decorator_per_rule
    (all_opinfos : list OpInfo.t) (tc bt : string)
    (to_skip : list DecorateMeta.t) (all_opinfos' : list OpInfo.t) :
  skip_ops all_opinfos tc bt to_skip = Ok all_opinfos' →
  total_decorators all_opinfos'
  = (total_decorators all_opinfos + length to_skip)%nat.
Proof.
  apply skip_ops_loop_total. intros key i Hi.
  destruct (make_ops_mapping_Some _ _ _ Hi) as (info & Hinfo & _).
  by apply lookup_lt_Some in Hinfo.
Qed.

(** X6.  With the tables as declared, the suite is built exactly when the
    registry has the operators "ceil", "sqrt" and "t", each without a
    variant name. *)
Theorem build_declared_tables_iff (OPS_DB : list OpInfo.t) :
  is_ok (build_TestConsistency declared_tables OPS_DB) = true
  ↔ ("ceil", EmptyString) ∈ opinfo_key <$> OPS_DB
    ∧ ("sqrt", EmptyString) ∈ opinfo_key <$> OPS_DB
    ∧ ("t", EmptyString) ∈ opinfo_key <$> OPS_DB.
Proof.
  unfold build_TestConsistency.
  pose proof (skip_ops_spec OPS_DB "TestConsistency" "test_output_match"
                (EXPECTED_SKIPS_OR_FAILS declared_tables)) as Hspec.
  destruct (skip_ops _ _ _ _) as [db'|e]; cbn [is_ok].
  - destruct Hspec as [Hres _]. split; [intros _|done].
    split; [|split].
    + exact (Hres _ (list_elem_of_here _ _)).
    + exact (Hres _ (list_elem_of_further _ _ _
                       (list_elem_of_further _ _ _ (list_elem_of_here _ _)))).
    + exact (Hres _ (list_elem_of_further _ _ _
                       (list_elem_of_further _ _ _
                          (list_elem_of_further _ _ _ (list_elem_of_here _ _))))).
  - destruct Hspec as [_ (rule & Hrule & Hkey)]. split; [done|].
    intros (Hceil & Hsqrt & Ht). exfalso. apply Hkey. cbn in Hrule.
    repeat (apply elem_of_cons in Hrule as [->|Hrule]; [done|]).
    by apply elem_of_nil in Hrule.
Qed.

(** ** Opset predicates *)

(** X7.  A rule whose opsets are all given by [opsets_before] is closed
    downwards: where it expects a failure it expects one at every older
    opset, for the same dtype.  A rule whose opsets are all given by
    [opsets_after] is closed upwards. *)
Theorem should_fail_closed (self : XfailOpset.t) (dtype : torch.dtype) :
  (Forall (λ spec, ∃ n, spec = OpsetPred (opsets_before n))
          (XfailOpset.opsets self) →
   ∀ v v', v' ≤ v →
           XfailOpset.should_fail self v dtype = true →
           XfailOpset.should_fail self v' dtype = true)
  ∧ (Forall (λ spec, ∃ n, spec = OpsetPred (opsets_after n))
            (XfailOpset.opsets self) →
     ∀ v v', v ≤ v' →
             XfailOpset.should_fail self v dtype = true →
             XfailOpset.should_fail self v' dtype = true).
Proof.
  unfold XfailOpset.should_fail, XfailOpset._contains_opset.
  split; intros Hall v v' Hle [Hopset ->]%andb_true_iff;
    rewrite andb_true_r; apply existsb_exists;
    apply existsb_exists in Hopset as (spec & Hin & Hspec);
    exists spec; (split; [done|]);
    apply list_elem_of_In in Hin;
    rewrite Forall_forall in Hall; destruct (Hall _ Hin) as [n ->];
    unfold opsets_before, opsets_after in *; lia.
Qed.

Lemma should_fail_closed_witness :
  XfailOpset.should_fail sqrt_bfloat16_rule 12 torch.bfloat16 = true
  ∧ XfailOpset.should_fail sqrt_bfloat16_rule 9 torch.bfloat16 = true.
Proof.
  split; [reflexivity|].
  refine (proj1 (should_fail_closed sqrt_bfloat16_rule torch.bfloat16)
                _ 12 9 _ _).
  - repeat constructor. by exists 13.
  - lia.
  - reflexivity.
Defined.

(** ** The sub-tests of [test_output_match] *)

Lemma elem_of_range lo hi v : v ∈ range lo hi ↔ lo ≤ v < hi.
Proof.
  unfold range. rewrite list_elem_of_fmap. split.
  - intros (i & -> & Hi%elem_of_seq). lia.
  - intros Hv. exists (Z.to_nat (v - lo)). split; [lia|].
    apply elem_of_seq. lia.
Qed.

Lemma length_range lo hi : length (range lo hi) = Z.to_nat (hi - lo).
Proof. unfold range. by rewrite length_fmap, length_seq. Qed.

Lemma elem_of_product {A B} (xs : list A) (ys : list B) x y :
  (x, y) ∈ product xs ys ↔ x ∈ xs ∧ y ∈ ys.
Proof.
  unfold product. rewrite list_elem_of_bind. split.
  - intros (x' & (y' & Hxy & Hy)%list_elem_of_bind & Hx).
    apply list_elem_of_singleton in Hxy as [= -> ->]. done.
  - intros [Hx Hy]. exists x. split; [|done].
    apply list_elem_of_bind. exists y. split; [|done].
    by apply list_elem_of_singleton.
Qed.

Lemma length_product {A B} (xs : list A) (ys : list B) :
  length (product xs ys) = (length xs * length ys)%nat.
Proof.
  unfold product. induction xs as [|x xs IH]; [done|].
  cbn. rewrite length_app. cbn in IH. rewrite IH. f_equal.
  clear. induction ys as [|y ys IH]; [done|]. cbn. by rewrite IH.
Qed.

Section subtests.
Context `{Collaborators}.

Lemma elem_of_TESTED_OPSETS v :
  v ∈ TESTED_OPSETS ↔ MIN_ONNX_OPSET_VERSION ≤ v ≤ ONNX_MAX_OPSET.
Proof.
  unfold TESTED_OPSETS, MAX_ONNX_OPSET_VERSION. rewrite elem_of_range. lia.
Qed.

Lemma elem_of_subtests tables dtype op st :
  st ∈ (λ p : SampleInput * Z, run_subtest tables dtype op p.1 p.2)
         <$> product (OpInfo.sample_inputs op "cpu" dtype) TESTED_OPSETS
  ↔ ∃ cpu_sample opset,
      cpu_sample ∈ OpInfo.sample_inputs op "cpu" dtype
      ∧ MIN_ONNX_OPSET_VERSION ≤ opset ≤ ONNX_MAX_OPSET
      ∧ st = run_subtest tables dtype op cpu_sample opset.
Proof.
  rewrite list_elem_of_fmap. split.
  - intros ([s o] & -> & [Hs Ho%elem_of_TESTED_OPSETS]%elem_of_product).
    by exists s, o.
  - intros (s & o & Hs & Ho & ->). exists (s, o). split; [done|].
    apply elem_of_product. split; [done|]. by apply elem_of_TESTED_OPSETS.
Qed.

(** The calls of a block: all but the last returned, and the block ends as
    its last call does. *)
Lemma run_block_calls dtype model inputs opset :
  ∃ cs c,
    (run_block dtype model inputs opset).1 = cs ++ [c]
    ∧ Forall (λ c', raises c' = None) cs
    ∧ (run_block dtype model inputs opset).2 = raises c.
Proof.
  unfold run_block. case_bool_decide.
  - destruct (raises (torch_onnx_export _ _ _ _)) eqn:He.
    { exists [], (torch_onnx_export model inputs opset None). by rewrite He. }
    destruct (raises onnx_load) eqn:Hl.
    { exists [torch_onnx_export model inputs opset None], onnx_load.
      rewrite Hl. by repeat constructor. }
    exists [torch_onnx_export model inputs opset None; onnx_load],
           (onnx_checker_check_model true).
    by repeat constructor.
  - by eexists [], _.
Qed.

Lemma run_block_call_opset dtype model inputs opset c v :
  c ∈ (run_block dtype model inputs opset).1 → call_opset c = Some v →
  v = opset.
Proof.
  unfold run_block. case_bool_decide.
  - destruct (raises (torch_onnx_export _ _ _ _)); [|destruct (raises onnx_load)];
      cbn; intros Hc Hv;
      repeat (apply elem_of_cons in Hc as [->|Hc]; [by (cbn in Hv; congruence)|]);
      by apply elem_of_nil in Hc.
  - cbn. intros ->%list_elem_of_singleton [= <-]. done.
Qed.

Lemma run_subtest_fields tables dtype op cpu_sample opset :
  let st := run_subtest tables dtype op cpu_sample opset in
  let block := run_block dtype (model_of op cpu_sample) (inputs_of cpu_sample)
                         opset in
  st_sample st = cpu_sample
  ∧ st_opset st = opset
  ∧ st_context st = select_context_manager tables op opset dtype
  ∧ st_calls st = block.1
  ∧ st_outcome st
    = exit_context (select_context_manager tables op opset dtype) block.2.
Proof.
  unfold run_subtest, model_of, inputs_of. by destruct (run_block _ _ _ _).
Qed.

(** X8.  On the cpu and for an allow-listed operator the test runs one
    sub-test for each sample and each opset from 9 to [ONNX_MAX_OPSET]
    and no other: [samples * (ONNX_MAX_OPSET - 8)] sub-tests, none when
    [ONNX_MAX_OPSET] is below 9. *)
Theorem subtests_are_samples_times_opsets
    (tables : Tables) (dtype : torch.dtype) (op : OpInfo.t) :
  OpInfo.name op ∈ ALLOWLIST_OP tables →
  ∃ sts,
    test_output_match tables "cpu" dtype op = Ok (subtests sts)
    ∧ length sts
      = (length (OpInfo.sample_inputs op "cpu" dtype)
         * Z.to_nat (ONNX_MAX_OPSET - 8))%nat
    ∧ ∀ cpu_sample opset,
        (∃ st, st ∈ sts ∧ st_sample st = cpu_sample ∧ st_opset st = opset)
        ↔ cpu_sample ∈ OpInfo.sample_inputs op "cpu" dtype
          ∧ 9 ≤ opset ≤ ONNX_MAX_OPSET.
Proof.
  intros Hallow. eexists. split; [by apply test_output_match_runs|]. split.
  - rewrite length_fmap, length_product. f_equal.
    unfold TESTED_OPSETS, MAX_ONNX_OPSET_VERSION, MIN_ONNX_OPSET_VERSION.
    rewrite length_range. lia.
  - intros s o. split.
    + intros (st & (s' & o' & Hs & Ho & ->)%elem_of_subtests & <- & <-).
      destruct (run_subtest_fields tables dtype op s' o') as (-> & -> & _).
      done.
    + intros [Hs Ho]. exists (run_subtest tables dtype op s o).
      split; [apply elem_of_subtests; by exists s, o|].
      by destruct (run_subtest_fields tables dtype op s o) as (-> & -> & _).
Qed.

(** X9.  The exporter and the verification never see an opset outside the
    tested range: every call of a sub-test that takes an opset version takes
    the opset of the sub-test, which lies between 9 and [ONNX_MAX_OPSET]. *)
Theorem calls_use_tested_opsets
    (tables : Tables) (dtype : torch.dtype) (op : OpInfo.t)
    (sts : list subtest) :
  test_output_match tables "cpu" dtype op = Ok (subtests sts) →
  ∀ st c v, st ∈ sts → c ∈ st_calls st → call_opset c = Some v →
            v = st_opset st ∧ 9 ≤ v ≤ ONNX_MAX_OPSET.
Proof.
  intros Hrun st c v Hst Hc Hv.
  unfold test_output_match in Hrun.
  rewrite (bool_decide_eq_true_2 ("cpu" = "cpu")) in Hrun by done.
  unfold assert in Hrun. rewrite bind_Ok in Hrun.
  destruct (negb _); [done|]. injection Hrun as <-.
  apply elem_of_subtests in Hst as (s & o & Hs & Ho & ->).
  destruct (run_subtest_fields tables dtype op s o) as (_ & Ho' & _ & Hcalls & _).
  rewrite Hcalls in Hc. rewrite Ho'.
  by rewrite (run_block_call_opset _ _ _ _ _ _ Hc Hv).
Qed.

End subtests.

Section outcomes.
Context `{Collaborators}.

Lemma test_output_match_subtests tables dtype op sts st :
  test_output_match tables "cpu" dtype op = Ok (subtests sts) → st ∈ sts →
  ∃ cpu_sample opset, st = run_subtest tables dtype op cpu_sample opset.
Proof.
  intros Hrun Hst. unfold test_output_match in Hrun.
  rewrite (bool_decide_eq_true_2 ("cpu" = "cpu")) in Hrun by done.
  unfold assert in Hrun. rewrite bind_Ok in Hrun.
  destruct (negb _); [done|]. injection Hrun as <-.
  apply elem_of_subtests in Hst as (s & o & _ & _ & ->). by exists s, o.
Qed.

(** X10.  A sub-test stops at the first call that raises: it makes at
    least one call, and every call before its last one returned. *)
Theorem no_call_after_a_raise
    (tables : Tables) (dtype : torch.dtype) (op : OpInfo.t)
    (sts : list subtest) :
  test_output_match tables "cpu" dtype op = Ok (subtests sts) →
  ∀ st, st ∈ sts →
    ∃ cs c, st_calls st = cs ++ [c] ∧ Forall (λ c', raises c' = None) cs.
Proof.
  intros Hrun st Hst.
  destruct (test_output_match_subtests _ _ _ _ _ Hrun Hst) as (s & o & ->).
  destruct (run_subtest_fields tables dtype op s o) as (_ & _ & _ & -> & _).
  destruct (run_block_calls dtype (model_of op s) (inputs_of s) o)
    as (cs & c & Hcs & Hall & _).
  by exists cs, c.
Qed.

Lemma select_context_manager_no_rule tables op opset dtype :
  (∀ fail, fail ∈ EXPECTED_OPSET_FAILS tables →
           XfailOpset.op_name fail ≠ OpInfo.name op) →
  select_context_manager tables op opset dtype = nullcontext.
Proof.
  intros Hno. unfold select_context_manager.
  rewrite expected_opset_fails_name_mapping_last.
  destruct (last _) as [fail|] eqn:Hlast; [|done].
  apply last_Some_elem_of, list_elem_of_filter in Hlast as [Hname Hin].
  by destruct (Hno fail Hin).
Qed.

(** X11.  For an operator that no opset-conditional rule names, no failure
    is expected in any sub-test, and a sub-test passes exactly when none of
    its calls raised. *)
Theorem subtest_passes_iff_no_raise
    (tables : Tables) (dtype : torch.dtype) (op : OpInfo.t)
    (sts : list subtest) :
  (∀ fail, fail ∈ EXPECTED_OPSET_FAILS tables →
           XfailOpset.op_name fail ≠ OpInfo.name op) →
  test_output_match tables "cpu" dtype op = Ok (subtests sts) →
  ∀ st, st ∈ sts →
    st_context st = nullcontext
    ∧ (st_outcome st = passed
       ↔ Forall (λ c, raises c = None) (st_calls st)).
Proof.
  intros Hno Hrun st Hst.
  destruct (test_output_match_subtests _ _ _ _ _ Hrun Hst) as (s & o & ->).
  destruct (run_subtest_fields tables dtype op s o)
    as (_ & _ & -> & -> & ->).
  rewrite select_context_manager_no_rule by done. split; [done|].
  destruct (run_block_calls dtype (model_of op s) (inputs_of s) o)
    as (cs & c & -> & Hall & ->).
  rewrite Forall_app, Forall_singleton. cbn.
  destruct (raises c); split; [done|by intros [_ ?]|done|done].
Qed.

(** X12.  Where the rule consulted for the operator expects a failure, the
    sub-test passes exactly when its last call raised an exception that is
    an instance of the class the rule gives, subclasses included, or of
    [Exception] if the rule gives none; a sub-test in which nothing raised
    fails. *)
Theorem expected_failure_must_raise
    (tables : Tables) (dtype : torch.dtype) (op : OpInfo.t)
    (fail : XfailOpset.t) (sts : list subtest) :
  last (filter (λ fail, XfailOpset.op_name fail = OpInfo.name op)
               (EXPECTED_OPSET_FAILS tables)) = Some fail →
  test_output_match tables "cpu" dtype op = Ok (subtests sts) →
  ∀ st, st ∈ sts →
    XfailOpset.should_fail fail (st_opset st) dtype = true →
    (st_outcome st = passed
     ↔ ∃ c e, last (st_calls st) = Some c
              ∧ raises c = Some e
              ∧ issubclass e (default "Exception" (XfailOpset.exception fail))
                = true)
    ∧ (Forall (λ c, raises c = None) (st_calls st) → st_outcome st = failed).
Proof.
  intros Hlast Hrun st Hst.
  destruct (test_output_match_subtests _ _ _ _ _ Hrun Hst) as (s & o & ->).
  destruct (run_subtest_fields tables dtype op s o)
    as (_ & -> & _ & -> & ->).
  intros Hfail. unfold select_context_manager.
  rewrite expected_opset_fails_name_mapping_last, Hlast, Hfail.
  destruct (run_block_calls dtype (model_of op s) (inputs_of s) o)
    as (cs & c & -> & Hall & ->).
  rewrite last_snoc. cbn [exit_context]. split.
  - destruct (raises c) as [e|] eqn:Hc.
    + destruct (issubclass e _) eqn:Hsub.
      * split; [intros _|done]. by exists c, e.
      * split; [done|]. intros (c' & e' & [= <-] & He' & Hsub').
        rewrite Hc in He'. injection He' as <-. congruence.
    + split; [done|]. intros (c' & e' & [= <-] & He' & _). congruence.
  - rewrite Forall_app, Forall_singleton. by intros [_ ->].
Qed.

(** X13.  The rules declared for other operators do not bear on an
    operator: putting in or taking out a rule with another operator name
    leaves the context manager of every sub-test as it is. *)
Theorem other_operators_rules_do_not_matter
    (tables tables' : Tables) (op : OpInfo.t)
    (fails1 fails2 : list XfailOpset.t) (other : XfailOpset.t) :
  XfailOpset.op_name other ≠ OpInfo.name op →
  EXPECTED_OPSET_FAILS tables = fails1 ++ fails2 →
  EXPECTED_OPSET_FAILS tables' = fails1 ++ other :: fails2 →
  ∀ opset dtype,
    select_context_manager tables' op opset dtype
    = select_context_manager tables op opset dtype.
Proof.
  intros Hother Ht Ht' opset dtype. unfold select_context_manager.
  rewrite !expected_opset_fails_name_mapping_last, Ht, Ht'.
  rewrite !filter_app, filter_cons. by rewrite decide_False.
Qed.

(** X14.  The device is asserted before the allow list is consulted: on a
    device other than "cpu" the test fails its assertion for every
    operator, allow-listed or not; on the cpu an operator outside the allow
    list is skipped, and no call is made for it. *)
Theorem test_output_match_gates
    (tables : Tables) (device : string) (dtype : torch.dtype) (op : OpInfo.t) :
  (device ≠ "cpu" →
   ∃ msg, test_output_match tables device dtype op = Raise (AssertionError msg))
  ∧ (device = "cpu" → OpInfo.name op ∉ ALLOWLIST_OP tables →
     ∃ msg, test_output_match tables device dtype op = Ok (skipTest msg)).
Proof.
  unfold test_output_match. split.
  - intros Hd. rewrite (bool_decide_eq_false_2 (device = "cpu")) by done.
    by eexists.
  - intros -> Hop. rewrite (bool_decide_eq_true_2 ("cpu" = "cpu")) by done.
    unfold assert. rewrite bind_Ok.
    rewrite (bool_decide_eq_false_2 _ Hop). by eexists.
Qed.

End outcomes.

(* ===================================================================== *)
(** * Further properties of the reference operators *)
(* ===================================================================== *)

Section xlog1py_more.
Context `{Backend}.

Lemma xlog1py_elements (a b : value) (s : list nat) :
  isinstance_TensorLike a || isinstance_TensorLike b = true →
  broadcast_shapes (vshape a) (vshape b) = Some s →
  ∃ r, _xlog1py a b = Ok r
       ∧ shape r = s
       ∧ ∀ idx,
           item r idx =
           if is_nan (read b idx) then NaN
           else if elem_eqb (read a idx) (Fin 0) then Fin 0
           else elem_mul (read a idx) (prims_log1p (read b idx)).
Proof.
  intros Ht Hs. unfold _xlog1py. rewrite Ht.
  destruct a as [ta|na], b as [tb|nb]; try discriminate Ht;
    cbn [assert isinstance_TensorLike]; rewrite bind_Ok.
  - destruct (is_cpu_scalar_tensor (VTensor tb)).
    + exact (xlog1py_chain ta (prims_device_put tb (device ta)) s Hs).
    + exact (xlog1py_chain ta tb s Hs).
  - exact (xlog1py_chain ta (prims_scalar_tensor nb (dtype ta) (device ta)) s Hs).
  - exact (xlog1py_chain (prims_scalar_tensor na (dtype tb) (device tb)) tb s Hs).
Qed.

(** X15.  With a scalar [a] that equals zero (0, 0.0 or False) the result
    has the shape of [b] and does not depend on [log1p]: it is NaN where [b]
    is NaN and 0 everywhere else, also where [log1p(b)] is infinite or
    undefined. *)
Theorem xlog1py_zero_scalar (n : Number) (tb : Tensor) :
  elem_eqb (elem_of_number n) (Fin 0) = true →
  ∃ r, _xlog1py (VNumber n) (VTensor tb) = Ok r
       ∧ shape r = shape tb
       ∧ ∀ idx,
           item r idx = if is_nan (read (VTensor tb) idx) then NaN else Fin 0.
Proof.
  intros Hn.
  destruct (xlog1py_elements (VNumber n) (VTensor tb) (shape tb))
    as (r & Hr & Hs & Hi); [done|apply broadcast_shapes_nil_l|].
  exists r. split; [done|]. split; [done|]. intros idx.
  by rewrite Hi, read_number, Hn.
Qed.

(** X16.  NaN comes through from either operand: the result is NaN at
    every position where [a] or [b] is NaN. *)
Theorem xlog1py_propagates_nan (a b : value) (s : list nat) :
  isinstance_TensorLike a || isinstance_TensorLike b = true →
  broadcast_shapes (vshape a) (vshape b) = Some s →
  ∃ r, _xlog1py a b = Ok r
       ∧ shape r = s
       ∧ ∀ idx,
           is_nan (read a idx) || is_nan (read b idx) = true →
           item r idx = NaN.
Proof.
  intros Ht Hs.
  destruct (xlog1py_elements a b s Ht Hs) as (r & Hr & Hrs & Hi).
  exists r. split; [done|]. split; [done|]. intros idx Hnan.
  rewrite Hi. destruct (is_nan (read b idx)); [done|].
  rewrite orb_false_r in Hnan. by destruct (read a idx).
Qed.

End xlog1py_more.

Section logit_more.
Context `{Backend}.

(** X17.  With [eps <= 1 - eps], [logit] levels off outside the bounds:
    every element below [eps] gives [log(eps / (1 - eps))], the value at
    [eps], and every element above [1 - eps] gives the value at
    [1 - eps]. *)
Theorem logit_levels_off (self : Tensor) (eps : elem) :
  elem_ltb (elem_sub (Fin 1) eps) eps = false →
  ∃ r, logit self (Some eps) = Ok r
       ∧ shape r = shape self
       ∧ ∀ idx,
           let x := read (VTensor self) idx in
           let hi := elem_sub (Fin 1) eps in
           (elem_ltb x eps = true →
            item r idx = prims_log (elem_div eps (elem_sub (Fin 1) eps)))
           ∧ (elem_ltb hi x = true →
              item r idx = prims_log (elem_div hi (elem_sub (Fin 1) hi))).
Proof.
  intros Hbounds.
  destruct (logit_ok self (Some eps)) as (r & Hr & Hs & Hi).
  exists r. split; [done|]. split; [done|]. intros idx x hi.
  rewrite Hi. cbn [from_option id]. fold x. fold hi. unfold clamp. split.
  - by intros ->.
  - intros Hhi. rewrite Hhi.
    destruct (elem_ltb x eps) eqn:Hlo; [|done].
    exfalso. clear -Hbounds Hhi Hlo. subst hi.
    destruct x as [| | |q], eps as [| | |p]; cbn in *; try done.
    destruct (Qcompare_spec (1 + - p) p), (Qcompare_spec (1 + - p) q),
      (Qcompare_spec q p); try done; lra.
Qed.

Hypothesis log_domain :
  ∀ e, is_nan e || elem_ltb e (Fin 0) = true → prims_log e = NaN.

(** X18.  An [eps] that is not NaN only matters outside its bounds: at
    every position whose element is neither below [eps] nor above
    [1 - eps], [logit] with [eps] gives what [logit] without [eps] gives. *)
Theorem logit_eps_within_bounds (self : Tensor) (eps : elem) :
  is_nan eps = false →
  ∃ r r0,
    logit self (Some eps) = Ok r
    ∧ logit self None = Ok r0
    ∧ shape r = shape r0
    ∧ ∀ idx,
        let x := read (VTensor self) idx in
        elem_ltb x eps = false →
        elem_ltb (elem_sub (Fin 1) eps) x = false →
        item r idx = item r0 idx.
Proof.
  intros _.
  destruct (logit_ok self (Some eps)) as (r & Hr & Hs & Hi).
  destruct (logit_ok self None) as (r0 & Hr0 & Hs0 & Hi0).
  exists r, r0. split; [done|]. split; [done|]. split; [congruence|].
  intros idx x Hlo Hhi. rewrite Hi, Hi0. cbn [from_option id]. fold x.
  rewrite (clamp_default_invisible log_domain x).
  unfold clamp at 1 2. by rewrite Hlo, Hhi.
Qed.

End logit_more.

(* ===================================================================== *)
(** * The further properties at concrete inputs *)
(* ===================================================================== *)

Lemma ops_mapping_round_trip_witness :
  NoDup (opinfo_key <$> allowlist_registry)
  ∧ allowlist_registry !! 1%nat = Some sqrt_info
  ∧ make_ops_mapping allowlist_registry !! opinfo_key sqrt_info = Some 1%nat.
Proof.
  assert (NoDup (opinfo_key <$> allowlist_registry)) as Hnodup
    by (apply (bool_decide_unpack _); vm_compute; exact I).
  split; [exact Hnodup|]. split; [reflexivity|].
  exact (proj2 (ops_mapping_round_trip allowlist_registry) Hnodup
               1%nat sqrt_info eq_refl).
Defined.

Lemma skip_ops_keeps_registry_witness :
  ∃ OPS_DB,
    skip_ops allowlist_registry "TestConsistency" "test_output_match"
             (EXPECTED_SKIPS_OR_FAILS declared_tables) = Ok OPS_DB
    ∧ length OPS_DB = length allowlist_registry
    ∧ make_ops_mapping OPS_DB = make_ops_mapping allowlist_registry.
Proof.
  destruct (skip_ops allowlist_registry "TestConsistency" "test_output_match"
              (EXPECTED_SKIPS_OR_FAILS declared_tables)) as [db|e] eqn:Hok;
    [|vm_compute in Hok; discriminate Hok].
  exists db. split; [reflexivity|].
  destruct (skip_ops_keeps_registry _ _ _ _ _ Hok) as (Hlen & Hmap & _).
  split; [exact Hlen|exact Hmap].
Defined.

Lemma skip_ops_single_rule_witness :
  let rule := skip "sqrt" EmptyString None (Some BOOL_TYPES) "unspecified" in
  ∃ OPS_DB,
    skip_ops allowlist_registry "TestConsistency" "test_output_match" [rule]
    = Ok OPS_DB
    ∧ ∃ i info,
        allowlist_registry !! i = Some info
        ∧ opinfo_key info = rule_key rule
        ∧ OPS_DB =
          <[i := OpInfo.set_decorators info
                   (OpInfo.decorators info
                    ++ [new_decorator "TestConsistency" "test_output_match"
                                      rule])]>
            allowlist_registry.
Proof.
  intros rule.
  destruct (skip_ops allowlist_registry "TestConsistency" "test_output_match"
              [rule]) as [db|e] eqn:Hok;
    [|vm_compute in Hok; discriminate Hok].
  exists db. split; [reflexivity|].
  destruct (skip_ops_single_rule _ _ _ _ _ Hok)
    as (i & info & Hi & Hkey & _ & Heq).
  exists i, info. split; [exact Hi|]. split; [exact Hkey|exact Heq].
Defined.

Lemma skip_ops_adds_one_decorator_per_rule_witness :
  ∃ OPS_DB,
    skip_ops allowlist_registry "TestConsistency" "test_output_match"
             (EXPECTED_SKIPS_OR_FAILS declared_tables) = Ok OPS_DB
    ∧ total_decorators OPS_DB = (total_decorators allowlist_registry + 4)%nat.
Proof.
  destruct (skip_ops allowlist_registry "TestConsistency" "test_output_match"
              (EXPECTED_SKIPS_OR_FAILS declared_tables)) as [db|e] eqn:Hok;
    [|vm_compute in Hok; discriminate Hok].
  exists db. split; [reflexivity|].
  exact (skip_ops_adds_one_decorator_per_rule _ _ _ _ _ Hok).
Defined.

Lemma subtests_are_samples_times_opsets_witness :
  OpInfo.name sqrt_info ∈ ALLOWLIST_OP declared_tables
  ∧ ∃ sts,
      test_output_match (H := quiet_collaborators) declared_tables "cpu"
                        torch.float32 sqrt_info = Ok (subtests sts)
      ∧ length sts = 9%nat.
Proof.
  assert (OpInfo.name sqrt_info ∈ ALLOWLIST_OP declared_tables) as Hin
    by (apply (bool_decide_unpack _); vm_compute; exact I).
  split; [exact Hin|].
  destruct (subtests_are_samples_times_opsets (H := quiet_collaborators)
              declared_tables torch.float32 sqrt_info Hin)
    as (sts & Hrun & Hlen & _).
  exists sts. split; [exact Hrun|exact Hlen].
Defined.

Lemma calls_use_tested_opsets_witness :
  let st := run_subtest (H := quiet_collaborators) declared_tables torch.float32
                        sqrt_info sqrt_sample 9 in
  let c := verification_verify (model_of sqrt_info sqrt_sample)
             (inputs_of sqrt_sample) [] 9 true ORT_PROVIDERS true true true in
  ∃ sts,
    test_output_match (H := quiet_collaborators) declared_tables "cpu"
                      torch.float32 sqrt_info = Ok (subtests sts)
    ∧ st ∈ sts ∧ c ∈ st_calls st ∧ call_opset c = Some 9
    ∧ 9 = st_opset st ∧ 9 ≤ 9 ≤ 17.
Proof.
  intros st c. eexists. split; [reflexivity|].
  split; [apply list_elem_of_here|]. split; [apply list_elem_of_here|].
  split; [reflexivity|].
  exact (calls_use_tested_opsets (H := quiet_collaborators) declared_tables
           torch.float32 sqrt_info _ eq_refl st c 9 (list_elem_of_here _ _)
           (list_elem_of_here _ _) eq_refl).
Defined.

Lemma no_call_after_a_raise_witness :
  let st := run_subtest (H := old_opset_collaborators) declared_tables
                        torch.bfloat16 sqrt_info sqrt_sample 9 in
  ∃ sts,
    test_output_match (H := old_opset_collaborators) declared_tables "cpu"
                      torch.bfloat16 sqrt_info = Ok (subtests sts)
    ∧ st ∈ sts
    ∧ ∃ cs c, st_calls st = cs ++ [c]
              ∧ Forall (λ c', raises (Collaborators := old_opset_collaborators) c'
                              = None) cs.
Proof.
  intros st. eexists. split; [reflexivity|].
  split; [apply list_elem_of_here|].
  exact (no_call_after_a_raise (H := old_opset_collaborators) declared_tables
           torch.bfloat16 sqrt_info _ eq_refl st (list_elem_of_here _ _)).
Defined.

Lemma subtest_passes_iff_no_raise_witness :
  let op := OpInfo.mk "t" EmptyString [] (λ _ _, [sqrt_sample]) in
  let st := run_subtest (H := quiet_collaborators) declared_tables torch.float32
                        op sqrt_sample 9 in
  (∀ fail, fail ∈ EXPECTED_OPSET_FAILS declared_tables →
           XfailOpset.op_name fail ≠ OpInfo.name op)
  ∧ st_context st = nullcontext
  ∧ (st_outcome st = passed
     ↔ Forall (λ c, raises (Collaborators := quiet_collaborators) c = None)
              (st_calls st)).
Proof.
  intros op st.
  assert (∀ fail, fail ∈ EXPECTED_OPSET_FAILS declared_tables →
                  XfailOpset.op_name fail ≠ OpInfo.name op) as Hno.
  { intros fail ->%list_elem_of_singleton. discriminate. }
  split; [exact Hno|].
  exact (subtest_passes_iff_no_raise (H := quiet_collaborators)
           declared_tables torch.float32 op _ Hno eq_refl st
           (list_elem_of_here _ _)).
Defined.

Lemma expected_failure_must_raise_witness :
  let st := run_subtest (H := old_opset_collaborators)
                        tables_with_exporter_error_rule
                        torch.bfloat16 sqrt_info sqrt_sample 9 in
  let export := torch_onnx_export (model_of sqrt_info sqrt_sample)
                                  (inputs_of sqrt_sample) 9 None in
  last (filter (λ fail, XfailOpset.op_name fail = OpInfo.name sqrt_info)
               (EXPECTED_OPSET_FAILS tables_with_exporter_error_rule))
  = Some sqrt_exporter_error_rule
  ∧ XfailOpset.should_fail sqrt_exporter_error_rule (st_opset st) torch.bfloat16
    = true
  ∧ last (st_calls st) = Some export
  ∧ raises (Collaborators := old_opset_collaborators) export
    = Some "UnsupportedOperatorError"
  ∧ issubclass (Collaborators := old_opset_collaborators)
               "UnsupportedOperatorError" "OnnxExporterError" = true
  ∧ st_outcome st = passed.
Proof.
  intros st export. do 5 (split; [reflexivity|]).
  refine (proj2 (proj1 (expected_failure_must_raise
                          (H := old_opset_collaborators)
                          tables_with_exporter_error_rule torch.bfloat16
                          sqrt_info sqrt_exporter_error_rule
                          _ eq_refl eq_refl st (list_elem_of_here _ _) eq_refl))
                _).
  exists export, "UnsupportedOperatorError". repeat split.
Defined.

Lemma other_operators_rules_do_not_matter_witness :
  XfailOpset.op_name sqrt_bfloat16_rule ≠ OpInfo.name ceil_info
  ∧ select_context_manager tables_with_two_sqrt_rules ceil_info 9 torch.float16
    = select_context_manager
        {| ALLOWLIST_OP := []; EXPECTED_SKIPS_OR_FAILS := [];
           EXPECTED_OPSET_FAILS := [sqrt_float16_rule] |}
        ceil_info 9 torch.float16.
Proof.
  assert (XfailOpset.op_name sqrt_bfloat16_rule ≠ OpInfo.name ceil_info) as Hne
    by discriminate.
  split; [exact Hne|].
  exact (other_operators_rules_do_not_matter
           {| ALLOWLIST_OP := []; EXPECTED_SKIPS_OR_FAILS := [];
              EXPECTED_OPSET_FAILS := [sqrt_float16_rule] |}
           tables_with_two_sqrt_rules
           ceil_info [] [sqrt_float16_rule] sqrt_bfloat16_rule Hne
           eq_refl eq_refl 9 torch.float16).
Defined.

Lemma test_output_match_gates_witness :
  "cuda" ≠ "cpu"
  ∧ ∃ msg,
      test_output_match (H := quiet_collaborators) declared_tables "cuda"
                        torch.float32 sqrt_info = Raise (AssertionError msg).
Proof.
  assert ("cuda" ≠ "cpu") as Hne by discriminate.
  split; [exact Hne|].
  exact (proj1 (test_output_match_gates (H := quiet_collaborators)
                  declared_tables "cuda" torch.float32 sqrt_info) Hne).
Defined.

Lemma xlog1py_zero_scalar_witness :
  let b := vector torch.float32 "cpu" [NaN; Fin (-1); Fin 5] in
  elem_eqb (elem_of_number (NBool false)) (Fin 0) = true
  ∧ ∃ r, _xlog1py (H := series_backend) (VNumber (NBool false)) (VTensor b) = Ok r
         ∧ shape r = shape b
         ∧ ∀ idx,
             item r idx = if is_nan (read (VTensor b) idx) then NaN else Fin 0.
Proof.
  intros b. split; [reflexivity|].
  exact (xlog1py_zero_scalar (H := series_backend) (NBool false) b eq_refl).
Defined.

Lemma xlog1py_propagates_nan_witness :
  let a := VTensor (vector torch.float32 "cpu" [NaN; Fin 2]) in
  let b := VNumber (NFloat (Fin 3)) in
  isinstance_TensorLike a || isinstance_TensorLike b = true
  ∧ broadcast_shapes (vshape a) (vshape b) = Some [2%nat]
  ∧ ∃ r, _xlog1py (H := series_backend) a b = Ok r
         ∧ shape r = [2%nat]
         ∧ ∀ idx, is_nan (read a idx) || is_nan (read b idx) = true →
                  item r idx = NaN.
Proof.
  intros a b. split; [reflexivity|]. split; [reflexivity|].
  exact (xlog1py_propagates_nan (H := series_backend) a b [2%nat]
           eq_refl eq_refl).
Defined.

Lemma logit_levels_off_witness :
  let self := vector torch.float32 "cpu" [Fin 0; Fin 1] in
  let eps := Fin (1 # 10) in
  elem_ltb (elem_sub (Fin 1) eps) eps = false
  ∧ ∃ r, logit (H := series_backend) self (Some eps) = Ok r
         ∧ shape r = shape self.
Proof.
  intros self eps. split; [reflexivity|].
  destruct (logit_levels_off (H := series_backend) self eps eq_refl)
    as (r & Hr & Hs & _).
  exists r. split; [exact Hr|exact Hs].
Defined.

Lemma logit_eps_within_bounds_witness :
  let self := vector torch.float32 "cpu" [Fin (1 # 2); Fin 0] in
  let eps := Fin (1 # 10) in
  (∀ e, is_nan e || elem_ltb e (Fin 0) = true
        → prims_log (Backend := series_backend) e = NaN)
  ∧ is_nan eps = false
  ∧ elem_ltb (read (VTensor self) [0%nat]) eps = false
  ∧ elem_ltb (elem_sub (Fin 1) eps) (read (VTensor self) [0%nat]) = false
  ∧ ∃ r r0,
      logit (H := series_backend) self (Some eps) = Ok r
      ∧ logit (H := series_backend) self None = Ok r0
      ∧ shape r = shape r0
      ∧ item r [0%nat] = item r0 [0%nat].
Proof.
  intros self eps. split; [exact log_series_domain|].
  do 3 (split; [reflexivity|]).
  destruct (logit_eps_within_bounds (H := series_backend) log_series_domain
              self eps eq_refl) as (r & r0 & Hr & Hr0 & Hs & Hi).
  exists r, r0. split; [exact Hr|]. split; [exact Hr0|]. split; [exact Hs|].
  exact (Hi [0%nat] eq_refl eq_refl).
Defined.

(** ** Further evaluations *)

Example old_exporter_subtests :
  match test_output_match (H := old_opset_collaborators) declared_tables "cpu"
          torch.bfloat16 sqrt_info with
  | Ok (subtests sts) =>
      st_outcome <$> sts
      = [passed; passed; passed; passed; passed; passed; passed; passed; passed]
      ∧ (length ∘ st_calls) <$> sts = [1; 1; 1; 1; 3; 3; 3; 3; 3]%nat
  | _ => False
  end.
Proof. vm_compute. done. Qed.

Example quiet_exporter_subtests :
  match test_output_match (H := quiet_collaborators) declared_tables "cpu"
          torch.bfloat16 sqrt_info with
  | Ok (subtests sts) =>
      st_outcome <$> sts
      = [failed; failed; failed; failed; passed; passed; passed; passed; passed]
  | _ => False
  end.
Proof. vm_compute. done. Qed.

Example logit_with_eps_values :
  match logit (H := series_backend)
          (vector torch.float32 "cpu" [Fin 0; Fin (1 # 10); Fin 1; Fin (9 # 10)])
          (Some (Fin (1 # 10))) with
  | Ok r =>
      item r [0%nat] = item r [1%nat] ∧ item r [2%nat] = item r [3%nat]
  | Raise _ => False
  end.
Proof. vm_compute. done. Qed.

Example decorated_test_instances :
  match build_TestConsistency declared_tables allowlist_registry with
  | Ok [ceil; sqrt; _] =>
      run_test_instance (H := old_opset_collaborators) declared_tables
                        "cpu" torch.int32 ceil = test_skipped
      ∧ run_test_instance (H := old_opset_collaborators) declared_tables
                          "cpu" torch.float64 ceil = test_unexpected_success
      ∧ run_test_instance (H := old_opset_collaborators) declared_tables
                          "cpu" torch.float32 ceil = test_passed
      ∧ run_test_instance (H := old_opset_collaborators) declared_tables
                          "cpu" torch.complex64 sqrt = test_skipped
      ∧ run_test_instance (H := old_opset_collaborators) declared_tables
                          "cpu" torch.bfloat16 sqrt = test_passed
      ∧ run_test_instance (H := quiet_collaborators) declared_tables
                          "cpu" torch.bfloat16 sqrt = test_failed
  | _ => False
  end.
Proof. vm_compute. done. Qed.
